(** * hw/ipc_client.c: the client side of the virtio-net IPC channel

    A shallow embedding of [hw/ipc_client.c] and the properties of its
    connection life cycle: initialisation, the retry timer, the connection
    handshake, the read callback and the teardown.

    The C functions are written in a small monad that threads the state of the
    device and of the host process, collects the calls made to the outside (the
    event list) and can fault (a NULL or dangling pointer handed to a library
    function).  What the outside answers (does [connect] succeed, which
    descriptor does [socket] hand out, which message arrives) is given to each
    function as an environment. *)

From stdpp Require Import gmap strings list fin_maps.
From Stdlib Require Import ZArith Lia.

Local Open Scope Z_scope.

(** ** Data *)

(** Modelled from the spec: [ipc_node] of ipc_node.h, which is not part of the
    source file.  The node keeps what [ipc_node_init] is given: the node id,
    the descriptor of the session (the stable identifier) and the guest memory
    descriptor. *)
Record ipc_node := {
  node_nid : Z;
  node_fd : Z;
  node_ram_fd : Z;
  node_ram_size : Z
}.

(** An entry of [ram_list.blocks]. *)
Record RAMBlock := {
  blk_offset : Z;
  blk_fd : Z;
  blk_length : Z
}.

(** Modelled from the spec: [ipc_msg_type] of ipc_node.h, which is not part of
    the source file.  The code names one message type, the kick; every other
    value is another type. *)
Inductive ipc_msg_type :=
| IPC_MESSAGE_TYPE_KICK
| IPC_MESSAGE_TYPE_other (code : Z).

(** The read handlers that [qemu_set_fd_handler] can be given by this file:
    [ipc_reader] with the device as its opaque argument. *)
Inductive fd_handler := ipc_reader_cb.

(** The state: the fields of [VirtIODevice] that the file uses, the link
    status kept by virtio-net, and the part of the host process that the file
    acts on. *)
Record world := {
  (* VirtIODevice *)
  socketpath : string;
  nid : Z;
  cinterval : Z;                  (* uint32_t, seconds *)
  ipc : option ipc_node;          (* vdev->ipc, None is NULL *)
  ts : option nat;                (* vdev->ts, None is NULL *)
  (* virtio-net *)
  link_down : bool;
  (* host process *)
  errno : Z;
  fds : gmap Z nat;               (* descriptor table: descriptor -> socket *)
  sock_count : nat;               (* sockets created so far *)
  fd_handlers : gmap Z fd_handler;(* read handlers of the main loop *)
  timers : gmap nat (option Z);   (* timers: Some d is pending at d (ms) *)
  clock_ms : Z                    (* rt_clock *)
}.

Definition set_config (p : string) (n i : Z) (w : world) : world :=
  {| socketpath := p; nid := n; cinterval := i; ipc := ipc w; ts := ts w;
     link_down := link_down w; errno := errno w; fds := fds w;
     sock_count := sock_count w; fd_handlers := fd_handlers w;
     timers := timers w; clock_ms := clock_ms w |}.

Definition set_ipc (c : option ipc_node) (w : world) : world :=
  {| socketpath := socketpath w; nid := nid w; cinterval := cinterval w;
     ipc := c; ts := ts w;
     link_down := link_down w; errno := errno w; fds := fds w;
     sock_count := sock_count w; fd_handlers := fd_handlers w;
     timers := timers w; clock_ms := clock_ms w |}.

Definition set_ts (t : option nat) (w : world) : world :=
  {| socketpath := socketpath w; nid := nid w; cinterval := cinterval w;
     ipc := ipc w; ts := t;
     link_down := link_down w; errno := errno w; fds := fds w;
     sock_count := sock_count w; fd_handlers := fd_handlers w;
     timers := timers w; clock_ms := clock_ms w |}.

Definition set_link_down (b : bool) (w : world) : world :=
  {| socketpath := socketpath w; nid := nid w; cinterval := cinterval w;
     ipc := ipc w; ts := ts w;
     link_down := b; errno := errno w; fds := fds w;
     sock_count := sock_count w; fd_handlers := fd_handlers w;
     timers := timers w; clock_ms := clock_ms w |}.

Definition set_errno (e : Z) (w : world) : world :=
  {| socketpath := socketpath w; nid := nid w; cinterval := cinterval w;
     ipc := ipc w; ts := ts w;
     link_down := link_down w; errno := e; fds := fds w;
     sock_count := sock_count w; fd_handlers := fd_handlers w;
     timers := timers w; clock_ms := clock_ms w |}.

Definition set_fds (f : gmap Z nat) (w : world) : world :=
  {| socketpath := socketpath w; nid := nid w; cinterval := cinterval w;
     ipc := ipc w; ts := ts w;
     link_down := link_down w; errno := errno w; fds := f;
     sock_count := sock_count w; fd_handlers := fd_handlers w;
     timers := timers w; clock_ms := clock_ms w |}.

Definition set_sock_count (n : nat) (w : world) : world :=
  {| socketpath := socketpath w; nid := nid w; cinterval := cinterval w;
     ipc := ipc w; ts := ts w;
     link_down := link_down w; errno := errno w; fds := fds w;
     sock_count := n; fd_handlers := fd_handlers w;
     timers := timers w; clock_ms := clock_ms w |}.

Definition set_fd_handlers (h : gmap Z fd_handler) (w : world) : world :=
  {| socketpath := socketpath w; nid := nid w; cinterval := cinterval w;
     ipc := ipc w; ts := ts w;
     link_down := link_down w; errno := errno w; fds := fds w;
     sock_count := sock_count w; fd_handlers := h;
     timers := timers w; clock_ms := clock_ms w |}.

Definition set_timers (t : gmap nat (option Z)) (w : world) : world :=
  {| socketpath := socketpath w; nid := nid w; cinterval := cinterval w;
     ipc := ipc w; ts := ts w;
     link_down := link_down w; errno := errno w; fds := fds w;
     sock_count := sock_count w; fd_handlers := fd_handlers w;
     timers := t; clock_ms := clock_ms w |}.

Definition set_clock_ms (t : Z) (w : world) : world :=
  {| socketpath := socketpath w; nid := nid w; cinterval := cinterval w;
     ipc := ipc w; ts := ts w;
     link_down := link_down w; errno := errno w; fds := fds w;
     sock_count := sock_count w; fd_handlers := fd_handlers w;
     timers := timers w; clock_ms := t |}.

(** ** Calls to the outside, in the order they are made *)

Inductive event :=
| EvPerror (msg : string)
| EvStderr (msg : string)
| EvSocket (ret : Z)
| EvConnect (fd : Z) (path : string) (len : nat) (ret : Z)
| EvInitSequence (c : ipc_node) (lowmem_limit : Z) (fd : Z) (ret : Z)
| EvDup2 (fd newfd : Z) (ret : Z)
| EvClose (fd : Z)
| EvShutdown (fd : Z)
| EvReconfigure (c : ipc_node) (ret : Z)
| EvRecv (c : ipc_node) (ret : Z)
| EvSetLinkDown (down : bool)
| EvSetFdHandler (fd : Z) (h : option fd_handler)
| EvNotify (queue : Z)
| EvMalloc (ok : bool)
| EvNodeInit (c : ipc_node) (ret : Z)
| EvFree
| EvNewTimer (t : nat)
| EvModTimer (t : nat) (expire : Z)
| EvDelTimer (t : nat)
| EvFreeTimer (t : nat).

(** ** The monad: state, event list, fault *)

Definition M (A : Type) : Type := world -> option (A * world * list event).

Definition ret {A} (a : A) : M A := fun w => Some (a, w, []).

Definition bind {A B} (m : M A) (f : A -> M B) : M B := fun w =>
  match m w with
  | None => None
  | Some (a, w1, l1) =>
      match f a w1 with
      | None => None
      | Some (b, w2, l2) => Some (b, w2, l1 ++ l2)
      end
  end.

Notation "'do' x <- m ; k" := (bind m (fun x => k))
  (at level 10, x name, m at level 99, k at level 200).
Notation "'do' ' p <- m ; k" := (bind m (fun x => match x with p => k end))
  (at level 10, p pattern, m at level 99, k at level 200).
Notation "m ;;; k" := (bind m (fun _ => k))
  (at level 100, k at level 200, right associativity).

Definition fault {A} : M A := fun _ => None.
Definition emit (e : event) : M unit := fun w => Some (tt, w, [e]).
Definition get : M world := fun w => Some (w, w, []).
Definition modify (f : world -> world) : M unit := fun w => Some (tt, f w, []).

(** Result, final state and events of a run. *)
Definition result_of {A} (r : option (A * world * list event)) : option A :=
  match r with Some (a, _, _) => Some a | None => None end.
Definition world_of {A} (r : option (A * world * list event)) : option world :=
  match r with Some (_, w, _) => Some w | None => None end.
Definition events_of {A} (r : option (A * world * list event)) : list event :=
  match r with Some (_, _, l) => l | None => [] end.

(** ** The calls to the outside

    The answer of the outside is an argument; the effect on the state and the
    event are what the call does.  The functions of ipc_node.h and of
    virtio-net are not part of the source file: they are modelled from the
    specification (the messages they carry, the descriptor they work on); the
    functions of the C library and of the QEMU main loop are modelled from
    their manuals. *)

Definition EFAULT : Z := 14.

(** Answer of a call that reports failure through its return value and
    [errno]. *)
Inductive outcome :=
| Success
| Failure (err : Z).

(** Answer of [ipc_socket]: a new descriptor or a failure. *)
Inductive sock_result :=
| SockOk (fd : Z)
| SockFail (err : Z).

(** Answer of [ipc_client_recv]: a message with its queue index, or a failure
    (a read error, or the peer closed the channel). *)
Inductive recv_result :=
| RecvMsg (mtype : ipc_msg_type) (curq : Z)
| RecvFail (err : Z).

Definition ret_of (o : outcome) : Z :=
  match o with Success => 0 | Failure _ => -1 end.

Definition set_errno_of (o : outcome) : M unit :=
  match o with Success => ret tt | Failure e => modify (set_errno e) end.

Definition perror (msg : string) : M unit := emit (EvPerror msg).
Definition fprintf_stderr (msg : string) : M unit := emit (EvStderr msg).

(** Modelled from the spec: [ipc_socket] opens a new socket and gives its
    descriptor, or -1. *)
Definition ipc_socket (r : sock_result) : M Z :=
  match r with
  | SockOk fd =>
      do w <- get;
      modify (set_fds (<[fd := sock_count w]> (fds w))) ;;;
      modify (set_sock_count (S (sock_count w))) ;;;
      emit (EvSocket fd) ;;;
      ret fd
  | SockFail e =>
      modify (set_errno e) ;;;
      emit (EvSocket (-1)) ;;;
      ret (-1)
  end.

(** Modelled from the spec: [ipc_connect] connects the socket to the remote
    address; 0 on success. *)
Definition ipc_connect (o : outcome) (fd : Z) (path : string) (len : nat)
  : M Z :=
  set_errno_of o ;;;
  emit (EvConnect fd path len (ret_of o)) ;;;
  ret (ret_of o).

(** Modelled from the spec: [ipc_client_init_sequence] sends the init message
    (memory descriptor of the node, low-memory limit) on [fd] and waits for the
    acknowledgment; negative on failure.  The node argument is dereferenced:
    NULL faults. *)
Definition ipc_client_init_sequence (o : outcome) (c : option ipc_node)
    (lowmem_limit fd : Z) : M Z :=
  match c with
  | None => fault
  | Some n =>
      set_errno_of o ;;;
      emit (EvInitSequence n lowmem_limit fd (ret_of o)) ;;;
      ret (ret_of o)
  end.

(** Modelled from the spec: [ipc_client_reconfigure] sends the reconfigure
    message on the descriptor of the node; negative on failure. *)
Definition ipc_client_reconfigure (o : outcome) (c : option ipc_node) : M Z :=
  match c with
  | None => fault
  | Some n =>
      set_errno_of o ;;;
      emit (EvReconfigure n (ret_of o)) ;;;
      ret (ret_of o)
  end.

(** Modelled from the spec: [ipc_client_recv] receives one message and its
    queue index; negative on a read error or when the peer has closed. *)
Definition ipc_client_recv (r : recv_result) (c : ipc_node)
  : M (Z * ipc_msg_type * Z) :=
  match r with
  | RecvMsg mtype curq =>
      emit (EvRecv c 0) ;;;
      ret (0, mtype, curq)
  | RecvFail e =>
      modify (set_errno e) ;;;
      emit (EvRecv c (-1)) ;;;
      ret (-1, IPC_MESSAGE_TYPE_other 0, 0)
  end.

(** Modelled from the spec: [ipc_get_fd] is not part of the source file; it
    gives the descriptor the node was initialised with, the stable identifier
    of the session. *)
Definition ipc_get_fd (c : option ipc_node) : M Z :=
  match c with
  | None => fault
  | Some n => ret (node_fd n)
  end.

(** Modelled from the spec: [ipc_node_init] is not part of the source file; on
    success the node holds the arguments. *)
Definition ipc_node_init (o : outcome) (nid fd ram_fd ram_size : Z)
  : M (Z * ipc_node) :=
  let c := {| node_nid := nid; node_fd := fd; node_ram_fd := ram_fd;
              node_ram_size := ram_size |} in
  set_errno_of o ;;;
  emit (EvNodeInit c (ret_of o)) ;;;
  ret (ret_of o, c).

Definition malloc (ok : bool) : M bool := emit (EvMalloc ok) ;;; ret ok.
Definition free : M unit := emit EvFree.

(** [dup2(fd, newfd)]: [newfd] now names what [fd] names. *)
Definition dup2 (o : outcome) (fd newfd : Z) : M Z :=
  match o with
  | Success =>
      do w <- get;
      modify (set_fds
                match fds w !! fd with
                | Some s => <[newfd := s]> (fds w)
                | None => fds w
                end) ;;;
      emit (EvDup2 fd newfd newfd) ;;;
      ret newfd
  | Failure e =>
      modify (set_errno e) ;;;
      emit (EvDup2 fd newfd (-1)) ;;;
      ret (-1)
  end.

Definition close (fd : Z) : M unit :=
  do w <- get;
  modify (set_fds (delete fd (fds w))) ;;;
  emit (EvClose fd).

Definition shutdown (fd : Z) : M unit := emit (EvShutdown fd).

(** Modelled from the spec: [virtio_net_set_link_down] is not part of the
    source file; it is the link-status setter of the device. *)
Definition virtio_net_set_link_down (down : bool) : M unit :=
  modify (set_link_down down) ;;;
  emit (EvSetLinkDown down).

(** [virtio_notify(vdev, virtio_get_queue(vdev, n))]: the notification of
    queue [n] to the device. *)
Definition virtio_notify_queue (n : Z) : M unit := emit (EvNotify n).

Definition qemu_set_fd_handler (fd : Z) (h : option fd_handler) : M unit :=
  do w <- get;
  modify (set_fd_handlers
            match h with
            | Some cb => <[fd := cb]> (fd_handlers w)
            | None => delete fd (fd_handlers w)
            end) ;;;
  emit (EvSetFdHandler fd h).

Definition qemu_get_clock_ms : M Z := do w <- get; ret (clock_ms w).

(** The timer calls dereference their argument: NULL or a freed timer
    faults.  Every timer of the store has [ipc_connect_to_server] as its
    callback. *)
Definition live_timer (t : option nat) : M nat :=
  do w <- get;
  match t with
  | Some i => match timers w !! i with Some _ => ret i | None => fault end
  | None => fault
  end.

Definition qemu_new_timer_ms : M (option nat) :=
  do w <- get;
  let i := fresh (dom (timers w)) in
  modify (set_timers (<[i := None]> (timers w))) ;;;
  emit (EvNewTimer i) ;;;
  ret (Some i).

Definition qemu_mod_timer (t : option nat) (expire : Z) : M unit :=
  do i <- live_timer t;
  do w <- get;
  modify (set_timers (<[i := Some expire]> (timers w))) ;;;
  emit (EvModTimer i expire).

Definition qemu_del_timer (t : option nat) : M unit :=
  do i <- live_timer t;
  do w <- get;
  modify (set_timers (<[i := None]> (timers w))) ;;;
  emit (EvDelTimer i).

Definition qemu_free_timer (t : option nat) : M unit :=
  do i <- live_timer t;
  do w <- get;
  modify (set_timers (delete i (timers w))) ;;;
  emit (EvFreeTimer i).

(** ** The functions of ipc_client.c *)

Definition nl : string := String (Ascii.ascii_of_nat 10) EmptyString.

(** What the outside answers during [init_client].  [ie_linux] is the
    condition of the [#if]: [defined(__linux__) && !defined(TARGET_S390X)]. *)
Record init_env := {
  ie_linux : bool;
  ie_ram_blocks : list RAMBlock;
  ie_socket : sock_result;
  ie_malloc : bool;
  ie_node_init : outcome
}.

(** What the outside answers during [connect_to_server].
    [ce_below_4g_ram_end] is the macro QEMU_BELOW_4G_RAM_END, when defined. *)
Record connect_env := {
  ce_below_4g_ram_end : option Z;
  ce_socket : sock_result;
  ce_connect : outcome;
  ce_init_sequence : outcome;
  ce_dup2 : outcome;
  ce_reconfigure : outcome
}.

Definition set_link_status (link_down : bool) : M unit :=
  virtio_net_set_link_down link_down.

(** The loop over [ram_list.blocks]: every block at offset 0 overwrites
    [ram_fd] and [ram_size]; [ram_fd] starts at -1 ([ram_size] starts
    uninitialised, it is read only after a block was found). *)
Definition find_ram (blocks : list RAMBlock) : Z * Z :=
  fold_left
    (fun acc block =>
       if blk_offset block =? 0 then (blk_fd block, blk_length block)
       else acc)
    blocks (-1, 0).

Definition ram_lookup (e : init_env) : Z * Z :=
  if ie_linux e then find_ram (ie_ram_blocks e) else (-1, 0).

Definition init_client (e : init_env) : M Z :=
  let '(ram_fd, ram_size) := ram_lookup e in
  if ram_fd =? -1 then
    perror "failed to find ram addr" ;;;
    ret (- EFAULT)
  else
    do fd <- ipc_socket (ie_socket e);
    if fd <? 0 then
      perror "failed to open a socket" ;;;
      do w <- get;
      ret (- errno w)
    else
      do c <- malloc (ie_malloc e);
      if negb c then
        perror "failed to malloc" ;;;
        ret (- EFAULT)
      else
        do w <- get;
        do '(r, node) <- ipc_node_init (ie_node_init e) (nid w) fd ram_fd
                           ram_size;
        if negb (r =? 0) then
          perror "failed to allocate a client" ;;;
          free ;;;
          do w <- get;
          ret (- errno w)
        else
          modify (set_ipc (Some node)) ;;;
          ret 0.

(** [vdev->cinterval * 1000] is a product of a [uint32_t] and an [int]: it is
    computed in 32-bit unsigned arithmetic, then added to the 64-bit clock. *)
Definition interval_ms (cinterval : Z) : Z := (cinterval * 1000) mod 2 ^ 32.

Definition ipc_set_connector : M unit :=
  do w <- get;
  do now <- qemu_get_clock_ms;
  qemu_mod_timer (ts w) (now + interval_ms (cinterval w)).

(** [opaque] is the device, never NULL. *)
Definition ipc_reader (r : recv_result) : M unit :=
  do w <- get;
  match ipc w with
  | None => ret tt
  | Some c =>
      do '(rc, mtype, curq) <- ipc_client_recv r c;
      if rc <? 0 then
        perror "can't receive data from a server" ;;;
        do fd <- ipc_get_fd (Some c);
        qemu_set_fd_handler fd None ;;;
        shutdown fd ;;;
        set_link_status true ;;;
        ipc_set_connector
      else
        match mtype with
        | IPC_MESSAGE_TYPE_KICK => virtio_notify_queue curq
        | _ => fprintf_stderr ("invalid ipc message type" +:+ nl)
        end
  end.

Definition lowmem_limit (e : connect_env) : Z :=
  match ce_below_4g_ram_end e with
  | Some v => v mod 2 ^ 32
  | None => 0xe0000000
  end.

Definition err1 (fd : Z) : M Z := close fd ;;; ret (- EFAULT).
Definition err2 (fd : Z) : M Z := shutdown fd ;;; ret (- EFAULT).

Definition connect_to_server (e : connect_env) : M Z :=
  do w <- get;
  let c := ipc w in
  do fd <- ipc_socket (ce_socket e);
  if fd <? 0 then
    perror "failed to open a socket" ;;;
    do w <- get;
    ret (- errno w)
  else
    do r <- ipc_connect (ce_connect e) fd (socketpath w)
              (String.length (socketpath w));
    if negb (r =? 0) then
      perror "failed to connect" ;;;
      err1 fd
    else
      do r <- ipc_client_init_sequence (ce_init_sequence e) c
                (lowmem_limit e) fd;
      if r <? 0 then
        perror "init sequence failed" ;;;
        err1 fd
      else
        do w <- get;
        do newfd <- ipc_get_fd (ipc w);
        do r <- dup2 (ce_dup2 e) fd newfd;
        if r <? 0 then
          perror "dup2 failed" ;;;
          err1 fd
        else
          close fd ;;;
          let fd := newfd in
          do r <- ipc_client_reconfigure (ce_reconfigure e) c;
          if r <? 0 then
            perror "reconfigure failed" ;;;
            err2 fd
          else
            set_link_status false ;;;
            qemu_set_fd_handler fd (Some ipc_reader_cb) ;;;
            ret 0.

Definition ipc_connect_to_server (e : connect_env) : M unit :=
  do r <- connect_to_server e;
  if negb (r =? 0) then ipc_set_connector else ret tt.

Definition ipc_init (e : init_env) (socketpath : string) (nid cinterval : Z)
  : M unit :=
  modify (set_config socketpath nid cinterval) ;;;
  do r <- init_client e;
  if negb (r =? 0) then
    fprintf_stderr ("Fatal error: can't init ipc node structure" +:+ nl)
  else
    do t <- qemu_new_timer_ms;
    modify (set_ts t) ;;;
    ipc_set_connector.

Definition ipc_exit : M unit :=
  do w <- get;
  match ipc w with
  | None => ret tt
  | Some _ =>
      qemu_del_timer (ts w) ;;;
      qemu_free_timer (ts w) ;;;
      do fd <- ipc_get_fd (ipc w);
      qemu_set_fd_handler fd None ;;;
      close fd ;;;
      set_link_status true ;;;
      free ;;;
      modify (set_ipc None)
  end.

(** ** The main loop of the host

    A pending timer expires: the clock has reached its deadline, the timer is
    no longer pending, and its callback runs.  A descriptor with a read handler
    becomes readable: the handler runs. *)

Definition timer_expires (t : nat) (e : connect_env) : M unit :=
  do w <- get;
  match timers w !! t with
  | Some (Some d) =>
      modify (set_clock_ms (Z.max (clock_ms w) d)) ;;;
      modify (set_timers (<[t := None]> (timers w))) ;;;
      ipc_connect_to_server e
  | _ => fault
  end.

Definition fd_readable (fd : Z) (r : recv_result) : M unit :=
  do w <- get;
  match fd_handlers w !! fd with
  | Some ipc_reader_cb => ipc_reader r
  | None => fault
  end.

Definition time_passes (dt : Z) : M unit :=
  do w <- get;
  modify (set_clock_ms (clock_ms w + Z.max 0 dt)).

(** ** Connection state and retry timer *)

(** The code keeps no state field.  Between two callbacks the session is
    connected when the read handler is registered on the descriptor of the
    session; it is disconnected when the session exists and no handler is
    registered on it. *)
Definition connected (w : world) : bool :=
  match ipc w with
  | Some c =>
      match fd_handlers w !! node_fd c with
      | Some ipc_reader_cb => true
      | None => false
      end
  | None => false
  end.

(** The deadline of the pending retry timer of the device, if any. *)
Definition retry_pending (w : world) : option Z :=
  match ts w with
  | Some t => match timers w !! t with Some d => d | None => None end
  | None => None
  end.

(** ** What the outside promises *)

(** [socket] hands out a descriptor that is not in use and not negative, or
    fails with a positive [errno]; a failing call leaves a positive [errno]. *)
Definition socket_contract (w : world) (r : sock_result) : Prop :=
  match r with
  | SockOk fd => 0 <= fd /\ fds w !! fd = None
  | SockFail err => 0 < err
  end.

Definition outcome_contract (o : outcome) : Prop :=
  match o with
  | Success => True
  | Failure err => 0 < err
  end.

(** ** The life of the device *)

(** Modelled from the spec: a device before [ipc_init] has no session, no
    timer, nothing registered, and its link status is DOWN (the code that sets
    the first value of the link status is in virtio-net, not in the source
    file; [ipc_init] does not write it). *)
Definition fresh_device (w : world) : Prop :=
  ipc w = None /\ link_down w = true /\ fd_handlers w = ∅ /\ timers w = ∅.

(** One step of the life of the device: a call of [ipc_init] on a device
    without session, a timer that expires, a readable descriptor, a call of
    [ipc_exit], or time that passes; the outside keeps its promises. *)
Inductive step : world -> list event -> world -> Prop :=
| step_init e p n i w w' l :
    ipc w = None ->
    socket_contract w (ie_socket e) -> outcome_contract (ie_node_init e) ->
    ipc_init e p n i w = Some (tt, w', l) -> step w l w'
| step_timer t e w w' l :
    socket_contract w (ce_socket e) ->
    timer_expires t e w = Some (tt, w', l) -> step w l w'
| step_read fd r w w' l :
    fd_readable fd r w = Some (tt, w', l) -> step w l w'
| step_exit w w' l :
    ipc_exit w = Some (tt, w', l) -> step w l w'
| step_time dt w w' l :
    time_passes dt w = Some (tt, w', l) -> step w l w'.

Inductive reachable (w0 : world) : world -> Prop :=
| reach_start : reachable w0 w0
| reach_next w l w' :
    reachable w0 w -> step w l w' -> reachable w0 w'.

Record session_inv (w : world) : Prop := {
  inv_link : link_down w = negb (connected w);
  inv_handlers :
    forall fd, is_Some (fd_handlers w !! fd) ->
               exists c, ipc w = Some c /\ node_fd c = fd;
  inv_timer :
    forall c, ipc w = Some c ->
              exists t, ts w = Some t /\ is_Some (timers w !! t);
  inv_timers :
    forall t, is_Some (timers w !! t) -> ts w = Some t /\ is_Some (ipc w);
  inv_pending :
    forall t d, timers w !! t = Some (Some d) -> connected w = false;
  inv_fd :
    forall c, ipc w = Some c ->
              0 <= node_fd c /\ is_Some (fds w !! node_fd c)
}.

(** The device is left to its retry timer: each time the timer expires the
    attempt is made with the next answers of the outside.  The result lists,
    for each attempt, the time at which it is made and the link status after
    it. *)
Fixpoint retry_loop (es : list connect_env) (w : world)
  : option (list (Z * bool) * world) :=
  match es with
  | [] => Some ([], w)
  | e :: es' =>
      match ts w with
      | None => None
      | Some t =>
          match timer_expires t e w with
          | None => None
          | Some (_, w1, _) =>
              match retry_loop es' w1 with
              | None => None
              | Some (a, w2) => Some ((clock_ms w1, link_down w1) :: a, w2)
              end
          end
      end
  end.

(** [n] attempts, one interval apart, the first at [d]. *)
Fixpoint cadence (n : nat) (d step : Z) (down : bool) : list (Z * bool) :=
  match n with
  | O => []
  | S n' => (d, down) :: cadence n' (d + step) step down
  end.

(** ** Kinds of events, kinds of failures *)

Definition is_arm (e : event) : bool :=
  match e with EvModTimer _ _ => true | _ => false end.

Definition is_link_report (e : event) : bool :=
  match e with EvSetLinkDown _ => true | _ => false end.

Definition is_link_down_report (e : event) : bool :=
  match e with EvSetLinkDown true => true | _ => false end.

Definition is_shutdown (e : event) : bool :=
  match e with EvShutdown _ => true | _ => false end.

Definition is_handler_change (e : event) : bool :=
  match e with EvSetFdHandler _ _ => true | _ => false end.

Definition is_connect (e : event) : bool :=
  match e with EvConnect _ _ _ _ => true | _ => false end.

Definition is_new_timer (e : event) : bool :=
  match e with EvNewTimer _ => true | _ => false end.

Definition is_release (e : event) : bool :=
  match e with
  | EvClose _ | EvFree | EvFreeTimer _ => true
  | _ => false
  end.

(** In a list of events, the retry timer is armed only while the last
    reported link status is DOWN; [down] is the status before the list. *)
Fixpoint armed_only_when_down (down : bool) (l : list event) : bool :=
  match l with
  | [] => true
  | EvSetLinkDown b :: l' => armed_only_when_down b l'
  | EvModTimer _ _ :: l' => down && armed_only_when_down down l'
  | _ :: l' => armed_only_when_down down l'
  end.

Definition is_failure (o : outcome) : bool :=
  match o with Success => false | Failure _ => true end.

Definition socket_fails (e : connect_env) : bool :=
  match ce_socket e with SockOk _ => false | SockFail _ => true end.

(** The attempt fails before the descriptor swap: the socket is not opened,
    the connection is refused, or the init message is not acknowledged. *)
Definition fails_before_swap (e : connect_env) : bool :=
  socket_fails e || is_failure (ce_connect e)
  || is_failure (ce_init_sequence e).

(** A step of the attempt fails. *)
Definition attempt_fails (e : connect_env) : bool :=
  fails_before_swap e || is_failure (ce_dup2 e)
  || is_failure (ce_reconfigure e).

(** The peer is absent: the socket is opened and [connect] fails. *)
Definition peer_absent (e : connect_env) : bool :=
  negb (socket_fails e) && is_failure (ce_connect e).

(** A step of the initialisation fails: the guest memory is not found, the
    socket is not opened, the node is not allocated, or the node is not
    initialised. *)
Definition init_fails (e : init_env) : bool :=
  (fst (ram_lookup e) =? -1)
  || match ie_socket e with SockOk fd => fd <? 0 | SockFail _ => true end
  || negb (ie_malloc e)
  || match ie_node_init e with Success => false | Failure _ => true end.

(** The guest memory is not found: no block of [ram_list] at offset 0 has a
    descriptor (or the platform has no such lookup). *)
Definition ram_not_found (e : init_env) : bool := fst (ram_lookup e) =? -1.

(** The node cannot be allocated: [malloc] gives NULL, or [ipc_node_init]
    refuses (the message of the code is "failed to allocate a client"). *)
Definition alloc_fails (e : init_env) : bool :=
  negb (ram_not_found e)
  && match ie_socket e with SockOk fd => negb (fd <? 0) | SockFail _ => false end
  && (negb (ie_malloc e) || is_failure (ie_node_init e)).

Definition is_perror (e : event) : bool :=
  match e with EvPerror _ => true | _ => false end.

Definition fatal_line : string :=
  "Fatal error: can't init ipc node structure" +:+ nl.

(** ** The state after a call *)

(** The state after a failed read. *)
Definition after_read_failure (err : Z) (c : ipc_node) (t : nat) (w : world)
  : world :=
  set_timers
    (<[t := Some (clock_ms w + interval_ms (cinterval w))]> (timers w))
    (set_link_down true
       (set_fd_handlers (delete (node_fd c) (fd_handlers w))
          (set_errno err w))).

(** The state after [ipc_exit] on a device with a session. *)
Definition after_exit (c : ipc_node) (t : nat) (w : world) : world :=
  set_ipc None
    (set_link_down true
       (set_fds (delete (node_fd c) (fds w))
          (set_fd_handlers (delete (node_fd c) (fd_handlers w))
             (set_timers (delete t (<[t := None]> (timers w))) w)))).

(** The state after a successful [ipc_init]. *)
Definition after_init (p : string) (n i fd rfd rsz : Z) (t : nat) (w : world)
  : world :=
  set_timers
    (<[t := Some (clock_ms w + interval_ms i)]> (<[t := None]> (timers w)))
    (set_ts (Some t)
       (set_ipc
          (Some {| node_nid := n; node_fd := fd; node_ram_fd := rfd;
                   node_ram_size := rsz |})
          (set_sock_count (S (sock_count w))
             (set_fds (<[fd := sock_count w]> (fds w))
                (set_config p n i w))))).

(** What a failed attempt leaves behind: the device, the timers, the read
    handlers and the link status are as before, nothing is reported or armed,
    the descriptor that was opened is closed again and no other descriptor is
    closed.  Before the swap the descriptor table is as before; after the swap
    the descriptor of the session names the new socket and is shut down. *)
Definition abandoned (e : connect_env) (c : ipc_node) (w w' : world)
    (l : list event) : Prop :=
  ipc w' = ipc w /\ ts w' = ts w /\ timers w' = timers w /\
  clock_ms w' = clock_ms w /\ cinterval w' = cinterval w /\
  fd_handlers w' = fd_handlers w /\ link_down w' = link_down w /\
  existsb is_link_report l = false /\ existsb is_arm l = false /\
  existsb is_handler_change l = false /\
  (forall fd, ce_socket e = SockOk fd -> fds w' !! fd = None) /\
  (forall k, fds w !! k = None -> fds w' !! k = None) /\
  (forall fd', In (EvClose fd') l -> ce_socket e = SockOk fd') /\
  (fails_before_swap e || is_failure (ce_dup2 e) = true ->
   fds w' = fds w /\ existsb is_shutdown l = false) /\
  (fails_before_swap e = false -> is_failure (ce_dup2 e) = false ->
   fds w' = <[node_fd c := sock_count w]> (fds w) /\
   In (EvShutdown (node_fd c)) l).

(** ** Concrete devices and answers, used to run the functions *)

Definition boot : world :=
  {| socketpath := EmptyString; nid := 0; cinterval := 0; ipc := None; ts := None;
     link_down := true; errno := 0;
     fds := {[ 0 := 0%nat; 1 := 1%nat; 2 := 2%nat ]}; sock_count := 3%nat;
     fd_handlers := ∅; timers := ∅; clock_ms := 0 |}.

Definition good_init : init_env :=
  {| ie_linux := true;
     ie_ram_blocks := [ {| blk_offset := 0; blk_fd := 9; blk_length := 4096 |} ];
     ie_socket := SockOk 10; ie_malloc := true; ie_node_init := Success |}.

Definition good_connect : connect_env :=
  {| ce_below_4g_ram_end := None; ce_socket := SockOk 11;
     ce_connect := Success; ce_init_sequence := Success; ce_dup2 := Success;
     ce_reconfigure := Success |}.

Definition absent_peer : connect_env :=
  {| ce_below_4g_ram_end := None; ce_socket := SockOk 11;
     ce_connect := Failure 111; ce_init_sequence := Success;
     ce_dup2 := Success; ce_reconfigure := Success |}.

Definition no_ram : init_env :=
  {| ie_linux := true;
     ie_ram_blocks :=
       [ {| blk_offset := 4096; blk_fd := 9; blk_length := 4096 |} ];
     ie_socket := SockOk 10; ie_malloc := true; ie_node_init := Success |}.

Definition no_memory : init_env :=
  {| ie_linux := true;
     ie_ram_blocks := [ {| blk_offset := 0; blk_fd := 9; blk_length := 4096 |} ];
     ie_socket := SockOk 10; ie_malloc := false; ie_node_init := Success |}.

Definition node_init_refused : init_env :=
  {| ie_linux := true;
     ie_ram_blocks := [ {| blk_offset := 0; blk_fd := 9; blk_length := 4096 |} ];
     ie_socket := SockOk 10; ie_malloc := true; ie_node_init := Failure 12 |}.

Definition the_world {A} (r : option (A * world * list event)) : world :=
  match r with Some (_, w, _) => w | None => boot end.

(** After [ipc_init]: the session exists, the timer is pending. *)
Definition w_init : world :=
  Eval vm_compute in the_world (ipc_init good_init "/tmp/s" 7 1 boot).

(** After the first timer with a peer that answers: connected. *)
Definition w_conn : world :=
  Eval vm_compute in the_world (timer_expires 0%nat good_connect w_init).

(** ** Definitions for the further properties *)

Definition is_close (e : event) : bool :=
  match e with EvClose _ => true | _ => false end.

(** The last block of [ram_list] at offset 0, if any. *)
Definition last_ram_block (blocks : list RAMBlock) : option RAMBlock :=
  last (filter (fun b => blk_offset b = 0) blocks).

(** The reconfigure message is refused, after the descriptor swap. *)
Definition refused_reconfigure : connect_env :=
  {| ce_below_4g_ram_end := None; ce_socket := SockOk 11;
     ce_connect := Success; ce_init_sequence := Success; ce_dup2 := Success;
     ce_reconfigure := Failure 32 |}.

(** After a failed read on the connected device: disconnected again. *)
Definition w_down : world :=
  Eval vm_compute in the_world (fd_readable 10 (RecvFail 104) w_conn).

(** The session is disconnected exactly when its retry timer is pending. *)
Definition pending_when_disconnected (w : world) : Prop :=
  forall c, ipc w = Some c -> connected w = false ->
            is_Some (retry_pending w).

(** ** Running the functions *)

Ltac unfold_calls :=
  cbv [ipc_init ipc_exit ipc_connect_to_server connect_to_server ipc_reader
       ipc_set_connector init_client err1 err2 set_link_status
       timer_expires fd_readable time_passes
       ipc_socket ipc_connect ipc_client_init_sequence ipc_client_reconfigure
       ipc_client_recv ipc_get_fd ipc_node_init malloc free dup2 close
       shutdown virtio_net_set_link_down virtio_notify_queue
       qemu_set_fd_handler qemu_get_clock_ms live_timer qemu_new_timer_ms
       qemu_mod_timer qemu_del_timer qemu_free_timer perror fprintf_stderr
       set_errno_of ret_of bind ret fault emit get modify result_of].

Ltac run := unfold_calls; simpl.

(** * The effect of each function *)

Lemma ipc_set_connector_run w u w' l :
  ipc_set_connector w = Some (u, w', l) ->
  exists t d,
    ts w = Some t /\ timers w !! t = Some d /\
    w' = set_timers
           (<[t := Some (clock_ms w + interval_ms (cinterval w))]> (timers w))
           w /\
    l = [EvModTimer t (clock_ms w + interval_ms (cinterval w))].
Proof.
  run. destruct (ts w) as [t|] eqn:Ht; simpl; [|discriminate].
  destruct (timers w !! t) as [d|] eqn:Hd; simpl; [|discriminate].
  intros H; inversion H; subst; clear H.
  exists t, d. repeat split; first [assumption | reflexivity].
Qed.

Lemma ipc_set_connector_ok w t d :
  ts w = Some t -> timers w !! t = Some d ->
  ipc_set_connector w =
    Some (tt,
          set_timers
            (<[t := Some (clock_ms w + interval_ms (cinterval w))]> (timers w))
            w,
          [EvModTimer t (clock_ms w + interval_ms (cinterval w))]).
Proof. intros Ht Hd. run. rewrite Ht. simpl. rewrite Hd. reflexivity. Qed.

Lemma ipc_reader_msg w c mtype curq :
  ipc w = Some c ->
  ipc_reader (RecvMsg mtype curq) w =
    Some (tt, w,
          [EvRecv c 0;
           match mtype with
           | IPC_MESSAGE_TYPE_KICK => EvNotify curq
           | _ => EvStderr ("invalid ipc message type" +:+ nl)
           end]).
Proof. intros Hc. run. rewrite Hc. destruct mtype; reflexivity. Qed.

Lemma ipc_reader_no_session w r :
  ipc w = None -> ipc_reader r w = Some (tt, w, []).
Proof. intros Hc. run. rewrite Hc. reflexivity. Qed.

Lemma ipc_reader_fail w c t d err :
  ipc w = Some c -> ts w = Some t -> timers w !! t = Some d ->
  ipc_reader (RecvFail err) w =
    Some (tt, after_read_failure err c t w,
          [EvRecv c (-1); EvPerror "can't receive data from a server";
           EvSetFdHandler (node_fd c) None; EvShutdown (node_fd c);
           EvSetLinkDown true;
           EvModTimer t (clock_ms w + interval_ms (cinterval w))]).
Proof.
  intros Hc Ht Hd. run. rewrite Hc. simpl. rewrite Ht. simpl. rewrite Hd.
  reflexivity.
Qed.

Lemma ipc_exit_session w c t d :
  ipc w = Some c -> ts w = Some t -> timers w !! t = Some d ->
  ipc_exit w =
    Some (tt, after_exit c t w,
          [EvDelTimer t; EvFreeTimer t; EvSetFdHandler (node_fd c) None;
           EvClose (node_fd c); EvSetLinkDown true; EvFree]).
Proof.
  intros Hc Ht Hd. run. rewrite Hc. simpl. rewrite Ht. simpl. rewrite Hd.
  simpl. rewrite lookup_insert_eq. reflexivity.
Qed.

Lemma ipc_exit_no_session w :
  ipc w = None -> ipc_exit w = Some (tt, w, []).
Proof. intros Hc. run. rewrite Hc. reflexivity. Qed.

Lemma connect_to_server_frame e w r w' l :
  socket_contract w (ce_socket e) ->
  connect_to_server e w = Some (r, w', l) ->
  ts w' = ts w /\ timers w' = timers w /\ clock_ms w' = clock_ms w /\
  cinterval w' = cinterval w /\ ipc w' = ipc w /\
  (forall c, ipc w = Some c -> is_Some (fds w !! node_fd c) ->
             is_Some (fds w' !! node_fd c)) /\
  ((r <> 0 /\ fd_handlers w' = fd_handlers w /\ link_down w' = link_down w /\
    existsb is_link_report l = false)
   \/
   (exists c, ipc w = Some c /\ r = 0 /\
      fd_handlers w' = <[node_fd c := ipc_reader_cb]> (fd_handlers w) /\
      link_down w' = false)).
Proof.
  intros Hs.
  assert (Hfd : forall fd c s (m : gmap Z nat),
             m !! fd = None -> is_Some (m !! node_fd c) ->
             is_Some (delete fd (<[fd := s]> m) !! node_fd c)).
  { intros fd c s m Hn Hc. rewrite delete_insert_eq.
    rewrite delete_id by assumption. assumption. }
  destruct e as [m [fd|err] o1 o2 o3 o4]; simpl in Hs.
  - destruct Hs as [Hs0 Hs1].
    destruct o1 as [|e1], o2 as [|e2], o3 as [|e3], o4 as [|e4];
      destruct (ipc w) as [c|] eqn:Hc; run; rewrite ?Hc; simpl;
      (destruct (Z.ltb_spec fd 0) as [?|_]; [lia|]); simpl;
      rewrite ?Hc; simpl.
    all: try destruct (node_fd c <? 0); simpl.
    all: intros H; inversion H; subst; clear H; simpl.
    all: repeat split; try assumption; try discriminate.
    all: try (intros c0 Hc0 Hk; inversion Hc0; subst c0; clear Hc0).
    all: try apply Hfd; try assumption.
    all: try (left; repeat split; first [assumption | discriminate | lia]).
    all: try (right; eauto; fail).
    all: rewrite ?lookup_insert_eq.
    all: assert (fd <> node_fd c)
      by (intros ->; rewrite Hs1 in Hk; destruct Hk; discriminate).
    all: rewrite lookup_delete_ne, lookup_insert_eq by assumption; eauto.
  - destruct (ipc w) as [c|] eqn:Hc; run; rewrite ?Hc; simpl.
    all: intros H; inversion H; subst; clear H; simpl.
    all: repeat split; try (intros; assumption).
    all: left; repeat split; lia.
Qed.

Lemma ipc_init_frame e p n i w w' l :
  socket_contract w (ie_socket e) -> outcome_contract (ie_node_init e) ->
  ipc_init e p n i w = Some (tt, w', l) ->
  fd_handlers w' = fd_handlers w /\ link_down w' = link_down w /\
  ((init_fails e = true /\ ipc w' = ipc w /\ ts w' = ts w /\
    timers w' = timers w /\ existsb is_arm l = false)
   \/
   (init_fails e = false /\
    exists c t, ipc w' = Some c /\ 0 <= node_fd c /\
      is_Some (fds w' !! node_fd c) /\ ts w' = Some t /\
      timers w !! t = None /\
      timers w' =
        <[t := Some (clock_ms w + interval_ms i)]> (<[t := None]> (timers w)))).
Proof.
  intros Hs Ho. unfold init_fails.
  assert (Hneg : forall z, 0 < z -> (- z =? 0) = false) by (intros; lia).
  destruct e as [lx blocks [fd|err] [|] [|e1]]; simpl in Hs, Ho |- *;
    run; destruct (ram_lookup _) as [rfd rsz]; simpl;
    destruct (rfd =? -1); simpl.
  all: try match type of Hs with
           | _ /\ _ =>
               destruct Hs as [Hs0 Hs1];
               destruct (Z.ltb_spec fd 0) as [?|_]; [lia|]
           | _ => rewrite (Hneg _ Hs)
           end; simpl.
  all: try rewrite (Hneg _ Ho); simpl.
  all: rewrite ?lookup_insert_eq; simpl.
  all: intros H; inversion H; subst; clear H; simpl.
  all: repeat split.
  all: try (left; repeat split; reflexivity).
  all: right; split; [reflexivity|].
  all: eexists _, _; repeat split; simpl; try reflexivity; try assumption.
  all: rewrite ?lookup_insert_eq; eauto.
  all: apply not_elem_of_dom; apply is_fresh.
Qed.

Lemma timer_expires_inv t e w w' l :
  timer_expires t e w = Some (tt, w', l) ->
  exists d,
    timers w !! t = Some (Some d) /\
    ipc_connect_to_server e
      (set_timers (<[t := None]> (timers w))
         (set_clock_ms (Z.max (clock_ms w) d) w)) = Some (tt, w', l).
Proof.
  unfold timer_expires, bind, get, modify.
  destruct (timers w !! t) as [[d|]|]; try discriminate.
  destruct (ipc_connect_to_server _ _) as [[[[] w2] l2]|] eqn:E;
    try discriminate.
  simpl. intros H; inversion H; subst. exists d. split; [reflexivity|].
  exact E.
Qed.

Lemma ipc_connect_to_server_inv e w w' l :
  ipc_connect_to_server e w = Some (tt, w', l) ->
  exists r w1 l1,
    connect_to_server e w = Some (r, w1, l1) /\
    ((r = 0 /\ w' = w1 /\ l = l1) \/
     (r <> 0 /\ exists l2,
        ipc_set_connector w1 = Some (tt, w', l2) /\ l = l1 ++ l2)).
Proof.
  unfold ipc_connect_to_server, bind.
  destruct (connect_to_server e w) as [[[r w1] l1]|]; try discriminate.
  intros H. exists r, w1, l1. split; [reflexivity|].
  destruct (Z.eqb_spec r 0) as [->|Hr]; simpl in H.
  - inversion H; subst. left. rewrite app_nil_r. auto.
  - destruct (ipc_set_connector w1) as [[[[] w2] l2]|] eqn:E;
      try discriminate.
    inversion H; subst. right. eauto.
Qed.

Lemma fd_readable_inv fd r w w' l :
  fd_readable fd r w = Some (tt, w', l) ->
  fd_handlers w !! fd = Some ipc_reader_cb /\
  ipc_reader r w = Some (tt, w', l).
Proof.
  unfold fd_readable, bind, get.
  destruct (fd_handlers w !! fd) as [[]|]; try discriminate.
  destruct (ipc_reader r w) as [[[[] w2] l2]|] eqn:E; try discriminate.
  simpl. intros H; inversion H; subst. auto.
Qed.

(** * The invariant of the session *)

Lemma fresh_device_inv w : fresh_device w -> session_inv w.
Proof.
  intros (Hi & Hl & Hh & Ht).
  split; unfold connected; rewrite ?Hi, ?Hh, ?Ht; try congruence.
  all: try (intros k [x Hx]; rewrite lookup_empty in Hx; discriminate).
  assumption.
Qed.

Lemma connected_ext w w' :
  ipc w' = ipc w -> fd_handlers w' = fd_handlers w ->
  connected w' = connected w.
Proof. unfold connected. intros -> ->. reflexivity. Qed.

Lemma no_session_facts w :
  session_inv w -> ipc w = None ->
  connected w = false /\ link_down w = true /\
  (forall fd, fd_handlers w !! fd = None) /\
  (forall t, timers w !! t = None).
Proof.
  intros I Hn.
  assert (Hc : connected w = false) by (unfold connected; rewrite Hn; auto).
  repeat split; try assumption.
  - rewrite (inv_link w I), Hc. reflexivity.
  - intros fd. destruct (fd_handlers w !! fd) eqn:E; [|reflexivity].
    destruct (inv_handlers w I fd) as (c & Hs & _); [eauto|congruence].
  - intros t. destruct (timers w !! t) eqn:E; [|reflexivity].
    destruct (inv_timers w I t) as (_ & [c Hs]); [eauto|congruence].
Qed.

Lemma connected_session w :
  session_inv w -> connected w = true ->
  exists c t d,
    ipc w = Some c /\ fd_handlers w !! node_fd c = Some ipc_reader_cb /\
    ts w = Some t /\ timers w !! t = Some d.
Proof.
  intros I Hc. unfold connected in Hc.
  destruct (ipc w) as [c|] eqn:Ec; [|discriminate].
  destruct (fd_handlers w !! node_fd c) as [[]|] eqn:Eh; [|discriminate].
  destruct (inv_timer w I c Ec) as (t & Ht & [d Hd]).
  exists c, t, d. auto.
Qed.

Lemma step_inv w l w' : session_inv w -> step w l w' -> session_inv w'.
Proof.
  intros I Hstep.
  pose proof (inv_link w I) as I1. pose proof (inv_handlers w I) as I2.
  pose proof (inv_timer w I) as I3. pose proof (inv_timers w I) as I4.
  pose proof (inv_pending w I) as I5. pose proof (inv_fd w I) as I6.
  destruct Hstep as
    [e p n i w w' l Hn Hs Ho Hrun | t e w w' l Hs Hrun | fd r w w' l Hrun
    | w w' l Hrun | dt w w' l Hrun].
  - (* ipc_init *)
    destruct (no_session_facts w I Hn) as (Hc & Hl & Hh & Ht).
    destruct (ipc_init_frame _ _ _ _ _ _ _ Hs Ho Hrun)
      as (Eh & El & [(_ & Ei & Ets & Etm & _) | (_ & c & t & Ei & Hfd0 & Hfd
                                                 & Ets & Hfr & Etm)]).
    + assert (Ec : connected w' = connected w) by (apply connected_ext; auto).
      split; rewrite ?Ec, ?El, ?Eh, ?Ei, ?Ets, ?Etm; try assumption.
      intros c0 Hc0. congruence.
    + assert (Ec : connected w' = false).
      { unfold connected. rewrite Ei, Eh, Hh. reflexivity. }
      split; rewrite ?Ec, ?El, ?Eh, ?Ei, ?Ets, ?Etm.
      * rewrite Hl. reflexivity.
      * intros fd [x Hx]. rewrite Hh in Hx. discriminate.
      * intros c0 _. exists t. rewrite lookup_insert_eq. eauto.
      * intros t0 [x Hx]. destruct (decide (t = t0)) as [->|Hne]; [eauto|].
        rewrite !lookup_insert_ne, Ht in Hx by assumption. discriminate.
      * reflexivity.
      * intros c0 Hc0. inversion Hc0; subst c0. auto.
  - (* a timer expires *)
    destruct (timer_expires_inv _ _ _ _ _ Hrun) as (d & Hd & Hrun1).
    destruct (inv_timers w I t) as (Hts & [c Hc]); [eauto|].
    pose proof (inv_pending w I t d Hd) as Hcon.
    destruct (ipc_connect_to_server_inv _ _ _ _ Hrun1)
      as (r & w1 & l1 & Hcts & Hrest).
    apply connect_to_server_frame in Hcts; [|exact Hs].
    simpl in Hcts.
    destruct Hcts as (Ets & Etm & Eck & Eci & Ei & Hfds & Hcase).
    assert (Hw' : ipc w' = ipc w /\ ts w' = ts w /\ fds w' = fds w1 /\
                  fd_handlers w' = fd_handlers w1 /\
                  link_down w' = link_down w1 /\
                  ((r = 0 /\ timers w' = <[t := None]> (timers w)) \/
                   (r <> 0 /\ exists x,
                      timers w' = <[t := Some x]> (<[t := None]> (timers w))))).
    { destruct Hrest as [(Hr & -> & _) | (Hr & l2 & Hsc & _)].
      - repeat split; auto.
      - apply ipc_set_connector_run in Hsc.
        destruct Hsc as (t0 & d0 & Ht0 & Hd0 & -> & _). simpl.
        rewrite Ets, Hts in Ht0. inversion Ht0; subst t0.
        repeat split; auto. right. split; [assumption|].
        rewrite Etm. eauto. }
    destruct Hw' as (Ei' & Ets' & Efd' & Eh' & El' & Htm').
    assert (Hlive : is_Some (timers w' !! t)).
    { destruct Htm' as [(_ & ->) | (_ & x & ->)];
        rewrite lookup_insert_eq; eauto. }
    assert (Hdom : forall t0, is_Some (timers w' !! t0) -> t0 = t).
    { intros t0 Hx. destruct (decide (t = t0)) as [->|Hne]; [reflexivity|].
      destruct Htm' as [(_ & E) | (_ & x & E)]; rewrite E in Hx;
        rewrite !lookup_insert_ne in Hx by assumption;
        destruct (inv_timers w I t0 Hx) as (Hts0 & _); congruence. }
    assert (Hfd' : forall c0, ipc w' = Some c0 ->
                     0 <= node_fd c0 /\ is_Some (fds w' !! node_fd c0)).
    { intros c0 Hc0. rewrite Ei' in Hc0.
      destruct (inv_fd w I c0 Hc0) as (H0 & H1). split; [assumption|].
      rewrite Efd'. apply Hfds; assumption. }
    destruct Hcase as [(Hr & Eh & El & _) | (c1 & Hc1 & Hr & Eh & El)].
    + assert (Ec : connected w' = connected w).
      { apply connected_ext; [assumption|]. rewrite Eh'. exact Eh. }
      split; rewrite ?Ec.
      * rewrite El', El. assumption.
      * intros fd. rewrite Eh', Eh, Ei'. apply I2.
      * intros c0 _. exists t. rewrite Ets'. auto.
      * intros t0 Hx. rewrite (Hdom t0 Hx), Ets', Ei'. split; eauto.
      * intros; assumption.
      * exact Hfd'.
    + simpl in Hc1. rewrite Hc in Hc1. inversion Hc1; subst c1.
      assert (Ec : connected w' = true).
      { unfold connected. rewrite Ei', Hc, Eh', Eh, lookup_insert_eq.
        reflexivity. }
      split; rewrite ?Ec.
      * rewrite El', El. reflexivity.
      * intros fd Hx. rewrite Eh', Eh in Hx. simpl in Hx.
        destruct (decide (node_fd c = fd)) as [<-|Hne].
        -- exists c. rewrite Ei'. auto.
        -- rewrite lookup_insert_ne in Hx by assumption.
           rewrite Ei'. apply I2. assumption.
      * intros c0 _. exists t. rewrite Ets'. auto.
      * intros t0 Hx. rewrite (Hdom t0 Hx), Ets', Ei'. split; eauto.
      * intros t0 d0 Hx. exfalso.
        assert (t0 = t) by (apply Hdom; eauto). subst t0.
        destruct Htm' as [(_ & E) | (Hr' & _)]; [|congruence].
        rewrite E, lookup_insert_eq in Hx. discriminate.
      * exact Hfd'.
  - (* a descriptor is readable *)
    destruct (fd_readable_inv _ _ _ _ _ Hrun) as (Hh & Hrd).
    destruct (inv_handlers w I fd) as (c & Hc & Hfd); [eauto|].
    destruct (inv_timer w I c Hc) as (t & Ht & [d Hd]).
    destruct r as [mtype curq | err].
    + rewrite (ipc_reader_msg w c mtype curq Hc) in Hrd.
      inversion Hrd; subst. exact I.
    + rewrite (ipc_reader_fail w c t d err Hc Ht Hd) in Hrd.
      inversion Hrd; subst w' l. clear Hrd.
      assert (Ec : connected (after_read_failure err c t w) = false).
      { unfold connected. simpl. rewrite Hc, lookup_delete_eq. reflexivity. }
      split; rewrite ?Ec; simpl.
      * reflexivity.
      * intros fd0 Hx. destruct (decide (node_fd c = fd0)) as [<-|Hne].
        -- eauto.
        -- rewrite lookup_delete_ne in Hx by assumption. apply I2. assumption.
      * intros c0 _. exists t. rewrite lookup_insert_eq. eauto.
      * intros t0 Hx. destruct (decide (t = t0)) as [<-|Hne].
        -- rewrite Hc. eauto.
        -- rewrite lookup_insert_ne in Hx by assumption. apply I4. assumption.
      * reflexivity.
      * assumption.
  - (* ipc_exit *)
    destruct (ipc w) as [c|] eqn:Hc.
    + destruct (inv_timer w I c Hc) as (t & Ht & [d Hd]).
      rewrite (ipc_exit_session w c t d Hc Ht Hd) in Hrun.
      inversion Hrun; subst w' l. clear Hrun.
      assert (Ec : connected (after_exit c t w) = false) by reflexivity.
      split; rewrite ?Ec; simpl; try discriminate; try reflexivity.
      * intros fd0 Hx. exfalso.
        destruct (decide (node_fd c = fd0)) as [<-|Hne].
        -- rewrite lookup_delete_eq in Hx. destruct Hx; discriminate.
        -- rewrite lookup_delete_ne in Hx by assumption.
           destruct (inv_handlers w I fd0 Hx) as (c0 & Hc0 & Hfd0).
           congruence.
      * intros t0 Hx. exfalso.
        destruct (decide (t = t0)) as [<-|Hne].
        -- rewrite lookup_delete_eq in Hx. destruct Hx; discriminate.
        -- rewrite lookup_delete_ne, lookup_insert_ne in Hx by assumption.
           destruct (inv_timers w I t0 Hx) as (Hts0 & _). congruence.
    + rewrite (ipc_exit_no_session w Hc) in Hrun.
      inversion Hrun; subst. exact I.
  - (* time passes *)
    unfold time_passes, bind, get, modify in Hrun. simpl in Hrun.
    inversion Hrun; subst w' l. clear Hrun.
    split; assumption.
Qed.

Lemma reachable_inv w0 w :
  fresh_device w0 -> reachable w0 w -> session_inv w.
Proof.
  intros H0 Hr. induction Hr as [|w l w' _ IH Hs].
  - apply fresh_device_inv. assumption.
  - eapply step_inv; eassumption.
Qed.

(** The concrete devices are reachable. *)
Lemma boot_fresh : fresh_device boot.
Proof. repeat split. Qed.

Lemma reachable_w_init : reachable boot w_init.
Proof.
  eapply reach_next; [apply reach_start|].
  eapply (step_init good_init "/tmp/s" 7 1 boot).
  - reflexivity.
  - simpl. split; [lia | reflexivity].
  - exact Logic.I.
  - vm_compute. reflexivity.
Qed.

Lemma reachable_w_conn : reachable boot w_conn.
Proof.
  eapply reach_next; [apply reachable_w_init|].
  eapply (step_timer 0%nat good_connect w_init).
  - simpl. split; [lia | reflexivity].
  - vm_compute. reflexivity.
Qed.

(** * Link status and connection state *)

(** C1. From a device that starts without session and with the link DOWN, in
    every reachable state the link is UP exactly when the session is connected
    (the read handler is registered on the descriptor of the session).  Every
    step that leaves the connected state reports the link DOWN in that same
    step, ends with the link DOWN, and arms the retry timer only after that
    report.  The two operations that leave the connected state, a failed read in
    the read callback and [ipc_exit], do return from a connected state. *)
Theorem link_up_iff_connected w0 w :
  fresh_device w0 -> reachable w0 w ->
  (link_down w = false <-> connected w = true) /\
  (forall l w',
     step w l w' -> connected w = true -> connected w' = false ->
     link_down w' = true /\
     existsb is_link_down_report l = true /\
     armed_only_when_down false l = true) /\
  (connected w = true ->
   forall err, exists c w' l,
     ipc w = Some c /\
     fd_readable (node_fd c) (RecvFail err) w = Some (tt, w', l) /\
     connected w' = false /\ existsb is_arm l = true) /\
  (connected w = true ->
   exists w' l,
     ipc_exit w = Some (tt, w', l) /\ connected w' = false /\
     existsb is_arm l = false).
Proof.
  intros H0 Hr. pose proof (reachable_inv w0 w H0 Hr) as I.
  split; [|split; [|split]].
  - rewrite (inv_link w I). destruct (connected w); simpl; split; congruence.
  - intros l w' Hstep Hc Hc'.
    destruct Hstep as
      [e p n i w w' l Hn Hs Ho Hrun | t e w w' l Hs Hrun | fd r w w' l Hrun
      | w w' l Hrun | dt w w' l Hrun].
    + unfold connected in Hc. rewrite Hn in Hc. discriminate.
    + destruct (timer_expires_inv _ _ _ _ _ Hrun) as (d & Hd & _).
      rewrite (inv_pending w I t d Hd) in Hc. discriminate.
    + destruct (fd_readable_inv _ _ _ _ _ Hrun) as (Hh & Hrd).
      destruct (connected_session w I Hc) as (c & t & d & Ec & _ & Et & Ed).
      destruct r as [mtype curq | err].
      * rewrite (ipc_reader_msg w c mtype curq Ec) in Hrd.
        inversion Hrd; subst. congruence.
      * rewrite (ipc_reader_fail w c t d err Ec Et Ed) in Hrd.
        inversion Hrd; subst. repeat split.
    + destruct (connected_session w I Hc) as (c & t & d & Ec & _ & Et & Ed).
      rewrite (ipc_exit_session w c t d Ec Et Ed) in Hrun.
      inversion Hrun; subst. repeat split.
    + unfold time_passes, bind, get, modify in Hrun. simpl in Hrun.
      inversion Hrun; subst. unfold connected in Hc, Hc'. simpl in Hc'.
      congruence.
  - intros Hc err.
    destruct (connected_session w I Hc) as (c & t & d & Ec & Eh & Et & Ed).
    exists c, (after_read_failure err c t w). eexists.
    split; [assumption|]. split; [|split].
    + unfold fd_readable, bind, get. rewrite Eh.
      rewrite (ipc_reader_fail w c t d err Ec Et Ed). reflexivity.
    + unfold connected. simpl. rewrite Ec, lookup_delete_eq. reflexivity.
    + reflexivity.
  - intros Hc.
    destruct (connected_session w I Hc) as (c & t & d & Ec & Eh & Et & Ed).
    exists (after_exit c t w). eexists.
    split; [apply (ipc_exit_session w c t d Ec Et Ed)|]. split; reflexivity.
Qed.

(** At the connected device: the link is UP, and a failed read leaves the
    connected state and arms the timer. *)
Lemma link_up_iff_connected_witness :
  fresh_device boot /\ reachable boot w_conn /\
  link_down w_conn = false /\ connected w_conn = true /\
  exists c w' l,
    ipc w_conn = Some c /\
    fd_readable (node_fd c) (RecvFail 104) w_conn = Some (tt, w', l) /\
    connected w' = false /\ existsb is_arm l = true.
Proof.
  pose proof (link_up_iff_connected boot w_conn boot_fresh reachable_w_conn)
    as (Hiff & _ & Hread & _).
  assert (Hc : connected w_conn = true) by reflexivity.
  split; [exact boot_fresh|]. split; [exact reachable_w_conn|].
  split; [apply Hiff; exact Hc|]. split; [exact Hc|].
  exact (Hread Hc 104).
Defined.

(** * Failed connection attempts *)

Lemma connect_to_server_fails e w c :
  ipc w = Some c -> 0 <= node_fd c -> is_Some (fds w !! node_fd c) ->
  socket_contract w (ce_socket e) -> attempt_fails e = true ->
  exists r w' l,
    connect_to_server e w = Some (r, w', l) /\ r <> 0 /\
    abandoned e c w w' l.
Proof.
  intros Hc H0 Hk Hs Hf. unfold abandoned.
  assert (Hnf : (node_fd c <? 0) = false) by lia.
  assert (Hfd : forall fd s (m : gmap Z nat),
             m !! fd = None -> delete fd (<[fd := s]> m) = m).
  { intros fd s m Hn. rewrite delete_insert_eq. apply delete_id. assumption. }
  destruct e as [m [fd|err] o1 o2 o3 o4];
    unfold attempt_fails, fails_before_swap, socket_fails in *;
    simpl in Hs, Hf |- *.
  - destruct Hs as [Hs0 Hs1].
    assert (Hne : fd <> node_fd c)
      by (intros ->; rewrite Hs1 in Hk; destruct Hk; discriminate).
    assert (Hlt : (fd <? 0) = false) by lia.
    destruct o1 as [|e1], o2 as [|e2], o3 as [|e3], o4 as [|e4];
      try discriminate Hf; run; rewrite ?Hc, ?Hlt; simpl;
      rewrite ?Hc, ?Hnf; simpl.
    all: eexists _, _, _; split; [reflexivity|]; simpl.
    all: rewrite ?lookup_insert_eq, ?Hfd by assumption.
    all: repeat split; try discriminate; try reflexivity.
    all: try (intros ? [=]; subst; rewrite ?lookup_delete_eq; assumption).
    all: try (intros ? [=]; subst; apply lookup_delete_eq).
    all: try (intros fd' Hin; simpl in Hin;
              repeat (destruct Hin as [Hin|Hin]; try discriminate Hin);
              [inversion Hin; reflexivity | contradiction]).
    all: try (rewrite delete_insert_ne, Hfd by auto; reflexivity).
    all: try (intros k Hk0; assumption).
    all: try (intros k Hk0; rewrite delete_insert_ne, Hfd by auto;
              rewrite lookup_insert_ne; [assumption|];
              intros <-; rewrite Hk0 in Hk; destruct Hk; discriminate).
    all: simpl; auto 10.
  - run. rewrite Hc. simpl.
    eexists _, _, _; split; [reflexivity|]; simpl.
    repeat split; try discriminate; try reflexivity; try lia;
      try assumption.
    + intros k Hk0. assumption.
    + intros fd' [H|[H|[]]]; discriminate H.
Qed.

Lemma ipc_connect_to_server_fails e w c t x :
  ipc w = Some c -> 0 <= node_fd c -> is_Some (fds w !! node_fd c) ->
  ts w = Some t -> timers w !! t = Some x ->
  socket_contract w (ce_socket e) -> attempt_fails e = true ->
  exists r w1 l1,
    connect_to_server e w = Some (r, w1, l1) /\ r <> 0 /\
    abandoned e c w w1 l1 /\
    ipc_connect_to_server e w =
      Some (tt,
            set_timers
              (<[t := Some (clock_ms w + interval_ms (cinterval w))]>
                 (timers w)) w1,
            l1 ++ [EvModTimer t (clock_ms w + interval_ms (cinterval w))]).
Proof.
  intros Hc H0 Hk Ht Hx Hs Hf.
  destruct (connect_to_server_fails e w c Hc H0 Hk Hs Hf)
    as (r & w1 & l1 & Hrun & Hr & Hab).
  exists r, w1, l1.
  split; [exact Hrun|]. split; [exact Hr|]. split; [exact Hab|].
  destruct Hab as (_ & Ets & Etm & Eck & Eci & _).
  unfold ipc_connect_to_server, bind. rewrite Hrun.
  destruct (Z.eqb_spec r 0) as [?|_]; [contradiction|]. simpl.
  rewrite (ipc_set_connector_ok w1 t x) by congruence.
  rewrite Etm, Eck, Eci. reflexivity.
Qed.

(** * Retryable errors *)

(** C2 as stated fails for a failed connection attempt: the timer callback
    ends the attempt and arms the timer again, but makes no call to the link
    status setter.  Here the peer is absent ([connect] fails) at the first
    timer after [ipc_init]. *)
Lemma failed_attempt_reports_no_link_status :
  attempt_fails absent_peer = true /\
  exists w',
    timer_expires 0%nat absent_peer w_init =
      Some (tt, w',
            [EvSocket 11; EvConnect 11 "/tmp/s" 6 (-1);
             EvPerror "failed to connect"; EvClose 11;
             EvModTimer 0 2000]) /\
    existsb is_link_report
      [EvSocket 11; EvConnect 11 "/tmp/s" 6 (-1);
       EvPerror "failed to connect"; EvClose 11;
       EvModTimer 0 2000] = false.
Proof.
  split; [reflexivity|]. eexists. split; [vm_compute|]; reflexivity.
Qed.

Lemma interval_ms_small i :
  0 <= i -> i * 1000 < 2 ^ 32 -> interval_ms i = i * 1000.
Proof. intros H0 H1. unfold interval_ms. apply Z.mod_small. lia. Qed.

(** C2, amended.  From a device that starts without session and with the link
    DOWN, and for a retry interval whose value in milliseconds fits 32 bits:
    - a connection attempt in which a step fails (socket, connect, init
      message, descriptor swap, reconfigure) returns to the disconnected state:
      the descriptor it opened is closed again (after the swap the descriptor
      of the session is shut down), the read handlers are as before, the link
      status is not reported, it is DOWN before and after, and the retry timer
      is pending one interval after the time of the attempt;
    - a failed read (read error or closed peer) removes the read handler, shuts
      the descriptor down, reports the link DOWN before it arms the timer, and
      the retry timer is pending one interval after the time of the read. *)
Theorem retryable_error_remediation w0 w :
  fresh_device w0 -> reachable w0 w ->
  0 <= cinterval w -> cinterval w * 1000 < 2 ^ 32 ->
  (forall t d e,
     timers w !! t = Some (Some d) ->
     socket_contract w (ce_socket e) -> attempt_fails e = true ->
     exists c w' l,
       ipc w = Some c /\
       timer_expires t e w = Some (tt, w', l) /\
       connected w' = false /\ fd_handlers w' = fd_handlers w /\
       (forall fd, ce_socket e = SockOk fd -> fds w' !! fd = None) /\
       (fails_before_swap e = false -> is_failure (ce_dup2 e) = false ->
        In (EvShutdown (node_fd c)) l) /\
       existsb is_link_report l = false /\
       link_down w = true /\ link_down w' = true /\
       retry_pending w' = Some (clock_ms w' + cinterval w * 1000)) /\
  (forall fd err,
     fd_handlers w !! fd = Some ipc_reader_cb ->
     exists w' l,
       fd_readable fd (RecvFail err) w = Some (tt, w', l) /\
       connected w' = false /\ fd_handlers w' !! fd = None /\
       In (EvShutdown fd) l /\
       existsb is_link_down_report l = true /\ link_down w' = true /\
       armed_only_when_down false l = true /\
       retry_pending w' = Some (clock_ms w' + cinterval w * 1000)).
Proof.
  intros H0 Hr Hi0 Hi1. pose proof (reachable_inv w0 w H0 Hr) as I.
  pose proof (interval_ms_small _ Hi0 Hi1) as Hms.
  split.
  - intros t d e Hd Hs Hf.
    destruct (inv_timers w I t) as (Hts & [c Hc]); [eauto|].
    destruct (inv_fd w I c Hc) as (Hfd0 & Hfd).
    pose proof (inv_pending w I t d Hd) as Hcon.
    set (w1 := set_timers (<[t := None]> (timers w))
                 (set_clock_ms (Z.max (clock_ms w) d) w)).
    destruct (ipc_connect_to_server_fails e w1 c t None)
      as (r & w2 & l1 & _ & _ & Hab & Hrun); try assumption.
    { apply lookup_insert_eq. }
    destruct Hab as (Ei & Ets & Etm & Eck & Eci & Eh & El & Hrep & _ & _
                     & Hclosed & _ & _ & _ & Hswap).
    simpl in Ei, Ets, Etm, Eck, Eci, Eh, El, Hrun.
    exists c. eexists. eexists. split; [assumption|]. split.
    { unfold timer_expires, bind, get, modify. rewrite Hd.
      fold w1. rewrite Hrun. reflexivity. }
    assert (Hl : link_down w = true).
    { rewrite (inv_link w I), Hcon. reflexivity. }
    simpl. repeat split.
    + rewrite <- Hcon. apply connected_ext; simpl; assumption.
    + assumption.
    + assumption.
    + intros Hb Hd2. apply in_or_app. left. apply Hswap; assumption.
    + rewrite existsb_app, Hrep. reflexivity.
    + assumption.
    + congruence.
    + unfold retry_pending. simpl. rewrite Ets, Hts, lookup_insert_eq.
      rewrite Eck, Hms. reflexivity.
  - intros fd err Hh.
    destruct (inv_handlers w I fd) as (c & Hc & Hfd); [eauto|]. subst fd.
    destruct (inv_timer w I c Hc) as (t & Ht & [d Hd]).
    exists (after_read_failure err c t w). eexists. split.
    { unfold fd_readable, bind, get. rewrite Hh.
      rewrite (ipc_reader_fail w c t d err Hc Ht Hd). reflexivity. }
    repeat split.
    + unfold connected. simpl. rewrite Hc, lookup_delete_eq. reflexivity.
    + simpl. apply lookup_delete_eq.
    + simpl. auto 10.
    + unfold retry_pending. simpl. rewrite Ht, lookup_insert_eq, Hms.
      reflexivity.
Qed.

(** At the device after [ipc_init], first timer, absent peer. *)
Lemma retryable_error_remediation_witness :
  fresh_device boot /\ reachable boot w_init /\
  0 <= cinterval w_init /\ cinterval w_init * 1000 < 2 ^ 32 /\
  exists c w' l,
    ipc w_init = Some c /\
    timer_expires 0%nat absent_peer w_init = Some (tt, w', l) /\
    connected w' = false /\
    existsb is_link_report l = false /\ link_down w' = true /\
    retry_pending w' = Some (clock_ms w' + cinterval w_init * 1000).
Proof.
  assert (H0 : 0 <= cinterval w_init) by (simpl; lia).
  assert (H1 : cinterval w_init * 1000 < 2 ^ 32) by (simpl; lia).
  destruct (retryable_error_remediation boot w_init boot_fresh
              reachable_w_init H0 H1) as (Hattempt & _).
  destruct (Hattempt 0%nat 1000 absent_peer)
    as (c & w' & l & Hc & Hrun & Hcon & _ & _ & _ & Hrep & _ & Hl & Hp).
  - reflexivity.
  - simpl. split; [lia | reflexivity].
  - reflexivity.
  - split; [exact boot_fresh|]. split; [exact reachable_w_init|].
    split; [exact H0|]. split; [exact H1|].
    exists c, w', l. auto 10.
Defined.

(** * The retry cadence *)

Lemma retry_loop_cadence es : forall w c t d,
  ipc w = Some c -> 0 <= node_fd c -> is_Some (fds w !! node_fd c) ->
  ts w = Some t -> timers w !! t = Some (Some d) -> clock_ms w <= d ->
  Forall (fun e => socket_contract w (ce_socket e) /\ attempt_fails e = true)
    es ->
  exists w',
    retry_loop es w =
      Some (cadence (List.length es) d (interval_ms (cinterval w))
              (link_down w), w') /\
    link_down w' = link_down w.
Proof.
  induction es as [|e es IH]; intros w c t d Hc H0 Hk Ht Hd Hck Hall.
  - exists w. split; reflexivity.
  - inversion Hall as [|e' es' [Hs Hf] Hall']; subst.
    assert (Hmax : Z.max (clock_ms w) d = d) by lia.
    set (w1 := set_timers (<[t := None]> (timers w)) (set_clock_ms d w)).
    destruct (ipc_connect_to_server_fails e w1 c t None)
      as (r & w2 & l1 & _ & _ & Hab & Hrun); try assumption.
    { apply lookup_insert_eq. }
    destruct Hab as (Ei & Ets & Etm & Eck & Eci & Eh & El & _ & _ & _
                     & _ & Hfresh & _ & Hpre & Hswap).
    simpl in Ei, Ets, Etm, Eck, Eci, Eh, El, Hrun, Hfresh.
    assert (Hms : 0 <= interval_ms (cinterval w)).
    { unfold interval_ms. apply Z.mod_pos_bound. lia. }
    match type of Hrun with _ = Some (_, ?x, _) => set (w3 := x) in * end.
    assert (Hk3 : is_Some (fds w3 !! node_fd c)).
    { simpl. destruct (fails_before_swap e) eqn:Eb;
        [|destruct (is_failure (ce_dup2 e)) eqn:Ed].
      - destruct (Hpre eq_refl) as (-> & _). assumption.
      - destruct (Hpre eq_refl) as (-> & _). assumption.
      - destruct (Hswap eq_refl eq_refl) as (-> & _).
        rewrite lookup_insert_eq. eauto. }
    assert (Hall3 : Forall (fun e0 => socket_contract w3 (ce_socket e0) /\
                                      attempt_fails e0 = true) es).
    { eapply Forall_impl; [exact Hall'|].
      intros e0 [Hs0 Hf0]. split; [|assumption].
      destruct (ce_socket e0) as [fd0|err0]; simpl in *; [|assumption].
      destruct Hs0. split; [assumption|]. apply Hfresh. assumption. }
    destruct (IH w3 c t (d + interval_ms (cinterval w)))
      as (w' & Hloop & Hl'); try assumption.
    { simpl. congruence. }
    { simpl. congruence. }
    { simpl. apply lookup_insert_eq. }
    { simpl. lia. }
    + exists w'. split.
      * simpl. rewrite Ht. unfold timer_expires at 1, bind, get, modify.
        rewrite Hd, Hmax. fold w1. rewrite Hrun. fold w3.
        rewrite Hloop. simpl. rewrite Eck, Eci, El. reflexivity.
      * rewrite Hl'. simpl. assumption.
Qed.

Lemma ipc_init_succeeds e p n i w :
  init_fails e = false ->
  exists fd,
    ie_socket e = SockOk fd /\ 0 <= fd /\
    ipc_init e p n i w =
      Some (tt,
            after_init p n i fd (fst (ram_lookup e)) (snd (ram_lookup e))
              (fresh (dom (timers w))) w,
            [EvSocket fd; EvMalloc true;
             EvNodeInit
               {| node_nid := n; node_fd := fd;
                  node_ram_fd := fst (ram_lookup e);
                  node_ram_size := snd (ram_lookup e) |} 0;
             EvNewTimer (fresh (dom (timers w)));
             EvModTimer (fresh (dom (timers w)))
               (clock_ms w + interval_ms i)]).
Proof.
  unfold init_fails. intros Hf.
  destruct e as [lx blocks [fd|err] [|] [|e1]]; simpl in Hf;
    rewrite ?orb_true_r in Hf; try discriminate Hf.
  apply orb_false_elim in Hf. destruct Hf as (Hf & _).
  apply orb_false_elim in Hf. destruct Hf as (Hf & _).
  apply orb_false_elim in Hf. destruct Hf as (Hram & Hfd).
  exists fd. split; [reflexivity|]. split; [lia|].
  run. destruct (ram_lookup _) as [rfd rsz]. simpl in Hram |- *.
  rewrite Hram, Hfd. simpl. rewrite lookup_insert_eq. reflexivity.
Qed.

(** C3 as stated fails.  With a retry interval of one second and an absent
    peer, [ipc_init] at time 0 makes no connection attempt (it opens the
    descriptor of the session and arms the timer for time 1000); the attempts
    are made at 1000, 2000 and 3000 milliseconds, none at time 0. *)
Lemma first_attempt_not_at_init_time :
  clock_ms boot = 0 /\
  ipc_init good_init "/tmp/s" 7 1 boot =
    Some (tt, w_init,
          [EvSocket 10; EvMalloc true;
           EvNodeInit {| node_nid := 7; node_fd := 10; node_ram_fd := 9;
                         node_ram_size := 4096 |} 0;
           EvNewTimer 0; EvModTimer 0 1000]) /\
  peer_absent absent_peer = true /\
  option_map fst (retry_loop [absent_peer; absent_peer; absent_peer] w_init) =
    Some [(1000, true); (2000, true); (3000, true)].
Proof. repeat split; vm_compute; reflexivity. Qed.

(** C3, amended.  For an initialisation that succeeds on a device whose link
    is DOWN, with a retry interval of [i] seconds whose value in milliseconds
    fits 32 bits, and an absent peer: [ipc_init] makes no connection attempt,
    the first attempt is made one interval after the initialisation, the next
    ones at two, three, ... intervals, and the link is DOWN after the
    initialisation and after each attempt. *)
Theorem attempts_every_interval_after_init e p n i w es :
  fresh_device w -> init_fails e = false ->
  socket_contract w (ie_socket e) ->
  0 <= i -> i * 1000 < 2 ^ 32 ->
  exists w1 l0,
    ipc_init e p n i w = Some (tt, w1, l0) /\
    existsb is_connect l0 = false /\
    link_down w1 = true /\
    retry_pending w1 = Some (clock_ms w + i * 1000) /\
    (Forall (fun e' => socket_contract w1 (ce_socket e') /\
                       peer_absent e' = true) es ->
     exists w2,
       retry_loop es w1 =
         Some (cadence (List.length es) (clock_ms w + i * 1000) (i * 1000)
                 true, w2) /\
       link_down w2 = true).
Proof.
  intros (Hi & Hl & Hh & Htm) Hf Hs H0 H1.
  destruct (ipc_init_succeeds e p n i w Hf) as (fd & Hsock & Hfd & Hrun).
  pose proof (interval_ms_small i H0 H1) as Hms.
  eexists _, _. split; [exact Hrun|].
  split; [reflexivity|]. split; [exact Hl|]. split.
  { unfold retry_pending. simpl. rewrite lookup_insert_eq, Hms. reflexivity. }
  intros Hall.
  match type of Hrun with _ = Some (_, ?x, _) => set (w1 := x) in * end.
  destruct (retry_loop_cadence es w1 _ (fresh (dom (timers w)))
              (clock_ms w + i * 1000) eq_refl) as (w2 & Hloop & Hl2).
  - simpl. assumption.
  - simpl. rewrite lookup_insert_eq. eauto.
  - reflexivity.
  - simpl. rewrite lookup_insert_eq, Hms. reflexivity.
  - simpl. lia.
  - eapply Forall_impl; [exact Hall|].
    intros e' [Hs' Ha]. split; [assumption|].
    unfold attempt_fails, fails_before_swap. unfold peer_absent in Ha.
    apply andb_true_iff in Ha. destruct Ha as (_ & ->).
    rewrite orb_true_r. reflexivity.
  - exists w2. simpl in Hloop, Hl2. rewrite Hms, Hl in Hloop.
    split; [exact Hloop | congruence].
Qed.

(** One second of interval, two attempts with an absent peer: at 1000 and at
    2000 milliseconds. *)
Lemma attempts_every_interval_after_init_witness :
  fresh_device boot /\ init_fails good_init = false /\
  socket_contract boot (ie_socket good_init) /\
  0 <= 1 /\ 1 * 1000 < 2 ^ 32 /\
  Forall (fun e' => socket_contract w_init (ce_socket e') /\
                    peer_absent e' = true) [absent_peer; absent_peer] /\
  exists w2,
    retry_loop [absent_peer; absent_peer] w_init =
      Some ([(1000, true); (2000, true)], w2) /\
    link_down w2 = true.
Proof.
  assert (Hs : socket_contract boot (ie_socket good_init)).
  { simpl. split; [lia | reflexivity]. }
  assert (H0 : 0 <= 1) by lia.
  assert (H1 : 1 * 1000 < 2 ^ 32) by lia.
  assert (Hall : Forall (fun e' => socket_contract w_init (ce_socket e') /\
                                   peer_absent e' = true)
                   [absent_peer; absent_peer]).
  { repeat constructor; simpl; lia. }
  destruct (attempts_every_interval_after_init good_init "/tmp/s" 7 1 boot
              [absent_peer; absent_peer] boot_fresh eq_refl Hs H0 H1)
    as (w1 & l0 & Hrun & _ & _ & _ & Hloop).
  assert (Hw : w1 = w_init).
  { vm_compute in Hrun. inversion Hrun. reflexivity. }
  subst w1.
  split; [exact boot_fresh|]. split; [reflexivity|]. split; [exact Hs|].
  split; [exact H0|]. split; [exact H1|]. split; [exact Hall|].
  exact (Hloop Hall).
Defined.

(** * The retry interval *)

(** X12.  Between two failed attempts the interval is the same one, whatever
    step fails: the value that [ipc_set_connector] adds to the clock.  It is the
    configured number of seconds in milliseconds as long as that product fits
    32 bits. *)
Lemma retry_interval_constant es w c t d :
  ipc w = Some c -> 0 <= node_fd c -> is_Some (fds w !! node_fd c) ->
  ts w = Some t -> timers w !! t = Some (Some d) -> clock_ms w <= d ->
  Forall (fun e => socket_contract w (ce_socket e) /\ attempt_fails e = true)
    es ->
  option_map fst (retry_loop es w) =
    Some (cadence (List.length es) d (interval_ms (cinterval w))
            (link_down w)).
Proof.
  intros Hc H0 Hk Ht Hd Hck Hall.
  destruct (retry_loop_cadence es w c t d Hc H0 Hk Ht Hd Hck Hall)
    as (w' & -> & _).
  reflexivity.
Qed.

(** C4, the code at the failing input.  With a retry interval of 4294968
    seconds the product with 1000 does not fit 32 bits: the timer is armed 704
    milliseconds ahead, and the attempts follow each other every 704
    milliseconds, not every 4294968000. *)
Theorem retry_interval_wraps_at_32_bits :
  4294968 < 2 ^ 32 /\
  interval_ms 4294968 = 704 /\
  retry_pending (the_world (ipc_init good_init "/tmp/s" 7 4294968 boot)) =
    Some 704 /\
  option_map fst
    (retry_loop [absent_peer; absent_peer]
       (the_world (ipc_init good_init "/tmp/s" 7 4294968 boot))) =
    Some [(704, true); (1408, true)].
Proof. repeat split; vm_compute; reflexivity. Qed.

(** * The handshake *)

(** C5.  A connection attempt on a device with a session makes its calls in
    this order, and stops with a non-zero result at the first call that fails:
    (1) [ipc_socket], then [ipc_connect] to [socketpath];
    (2) the init message, with the node (which holds the guest memory
        descriptor) and the low-memory limit;
    (3) [dup2] of the new descriptor onto the descriptor of the session, then
        [close] of the new descriptor: the descriptor of the session names the
        new socket, the new descriptor is free;
    (4) the reconfigure message;
    (5) the link is reported UP and the read handler is registered on the
        descriptor of the session, as the last calls of [connect_to_server]
        before it returns 0: when the attempt has returned success the handler
        is registered.
    A failed attempt registers no handler. *)
Theorem handshake_steps_in_order w c e :
  ipc w = Some c -> 0 <= node_fd c -> is_Some (fds w !! node_fd c) ->
  socket_contract w (ce_socket e) ->
  let p := socketpath w in
  let len := String.length p in
  let lm := lowmem_limit e in
  let sfd := node_fd c in
  exists r w' l,
    connect_to_server e w = Some (r, w', l) /\
    match ce_socket e with
    | SockFail _ =>
        r <> 0 /\ fd_handlers w' = fd_handlers w /\
        l = [EvSocket (-1); EvPerror "failed to open a socket"]
    | SockOk fd =>
        match ce_connect e, ce_init_sequence e, ce_dup2 e, ce_reconfigure e
        with
        | Failure _, _, _, _ =>
            r <> 0 /\ fd_handlers w' = fd_handlers w /\
            l = [EvSocket fd; EvConnect fd p len (-1);
                 EvPerror "failed to connect"; EvClose fd]
        | Success, Failure _, _, _ =>
            r <> 0 /\ fd_handlers w' = fd_handlers w /\
            l = [EvSocket fd; EvConnect fd p len 0;
                 EvInitSequence c lm fd (-1);
                 EvPerror "init sequence failed"; EvClose fd]
        | Success, Success, Failure _, _ =>
            r <> 0 /\ fd_handlers w' = fd_handlers w /\
            l = [EvSocket fd; EvConnect fd p len 0;
                 EvInitSequence c lm fd 0; EvDup2 fd sfd (-1);
                 EvPerror "dup2 failed"; EvClose fd]
        | Success, Success, Success, Failure _ =>
            r <> 0 /\ fd_handlers w' = fd_handlers w /\
            l = [EvSocket fd; EvConnect fd p len 0;
                 EvInitSequence c lm fd 0; EvDup2 fd sfd sfd; EvClose fd;
                 EvReconfigure c (-1); EvPerror "reconfigure failed";
                 EvShutdown sfd]
        | Success, Success, Success, Success =>
            r = 0 /\
            l = [EvSocket fd; EvConnect fd p len 0;
                 EvInitSequence c lm fd 0; EvDup2 fd sfd sfd; EvClose fd;
                 EvReconfigure c 0; EvSetLinkDown false;
                 EvSetFdHandler sfd (Some ipc_reader_cb)] /\
            fds w' !! sfd = Some (sock_count w) /\ fds w' !! fd = None /\
            fd_handlers w' = <[sfd := ipc_reader_cb]> (fd_handlers w) /\
            link_down w' = false /\ connected w' = true
        end
    end.
Proof.
  intros Hc H0 Hk Hs. simpl.
  assert (Hnf : (node_fd c <? 0) = false) by lia.
  destruct e as [m [fd|err] o1 o2 o3 o4]; simpl in Hs |- *.
  - destruct Hs as [Hs0 Hs1].
    assert (Hne : fd <> node_fd c)
      by (intros ->; rewrite Hs1 in Hk; destruct Hk; discriminate).
    assert (Hlt : (fd <? 0) = false) by lia.
    destruct o1 as [|e1], o2 as [|e2], o3 as [|e3], o4 as [|e4];
      run; rewrite ?Hc, ?Hlt; simpl; rewrite ?Hc, ?Hnf; simpl.
    all: eexists _, _, _; split; [reflexivity|]; simpl.
    all: repeat split; try discriminate.
    all: rewrite ?lookup_insert_eq.
    + rewrite lookup_delete_ne, lookup_insert_eq by assumption. reflexivity.
    + apply lookup_delete_eq.
    + unfold connected. simpl. rewrite Hc, lookup_insert_eq. reflexivity.
  - run. eexists _, _, _; split; [reflexivity|]; simpl.
    repeat split. lia.
Qed.

(** The calls of a successful attempt on the device after [ipc_init]. *)
Lemma handshake_steps_in_order_witness :
  exists w',
    connect_to_server good_connect
      (set_timers (<[0%nat := None]> (timers w_init)) w_init) =
      Some (0, w',
            [EvSocket 11; EvConnect 11 "/tmp/s" 6 0;
             EvInitSequence
               {| node_nid := 7; node_fd := 10; node_ram_fd := 9;
                  node_ram_size := 4096 |} 0xe0000000 11 0;
             EvDup2 11 10 10; EvClose 11;
             EvReconfigure
               {| node_nid := 7; node_fd := 10; node_ram_fd := 9;
                  node_ram_size := 4096 |} 0;
             EvSetLinkDown false;
             EvSetFdHandler 10 (Some ipc_reader_cb)]) /\
    fds w' !! 10 = Some 4%nat /\ fds w' !! 11 = None /\ connected w' = true.
Proof.
  set (w := set_timers (<[0%nat := None]> (timers w_init)) w_init).
  assert (Hc : ipc w = Some {| node_nid := 7; node_fd := 10; node_ram_fd := 9;
                               node_ram_size := 4096 |}) by reflexivity.
  assert (Hk : is_Some (fds w !! 10)) by (vm_compute; eauto).
  assert (Hs : socket_contract w (ce_socket good_connect)).
  { simpl. split; [lia | reflexivity]. }
  destruct (handshake_steps_in_order w _ good_connect Hc
              ltac:(simpl; lia) Hk Hs)
    as (r & w' & l & Hrun & Hr & Hl & Hf1 & Hf2 & _ & _ & Hcon).
  simpl in Hr, Hl, Hf1, Hf2. subst r l.
  exists w'. split; [exact Hrun|]. repeat split; assumption.
Defined.

(** C9.  A connection attempt that fails before the descriptor swap (socket,
    connect or init message) closes no descriptor but the one it opened: the
    session, the descriptor table (so the descriptor of the session and what it
    names), the read handlers and the link status are as before, and the
    attempt makes no call to [shutdown], to [qemu_set_fd_handler] or to the
    link status setter. *)
Theorem failed_attempt_before_swap_frame w c e :
  ipc w = Some c -> 0 <= node_fd c -> is_Some (fds w !! node_fd c) ->
  socket_contract w (ce_socket e) -> fails_before_swap e = true ->
  exists r w' l,
    connect_to_server e w = Some (r, w', l) /\ r <> 0 /\
    ipc w' = ipc w /\ fds w' = fds w /\
    fd_handlers w' = fd_handlers w /\ link_down w' = link_down w /\
    (forall fd', In (EvClose fd') l -> ce_socket e = SockOk fd') /\
    existsb is_shutdown l = false /\
    existsb is_handler_change l = false /\
    existsb is_link_report l = false.
Proof.
  intros Hc H0 Hk Hs Hf.
  assert (Hf' : attempt_fails e = true).
  { unfold attempt_fails. rewrite Hf. reflexivity. }
  destruct (connect_to_server_fails e w c Hc H0 Hk Hs Hf')
    as (r & w' & l & Hrun & Hr & Hab).
  destruct Hab as (Ei & _ & _ & _ & _ & Eh & El & Hrep & _ & Hhc & _ & _
                   & Hclose & Hpre & _).
  destruct Hpre as (Efd & Hsh); [rewrite Hf; reflexivity|].
  exists r, w', l. auto 12.
Qed.

(** An absent peer on the device after [ipc_init]. *)
Lemma failed_attempt_before_swap_frame_witness :
  exists r w' l,
    connect_to_server absent_peer w_init = Some (r, w', l) /\ r <> 0 /\
    ipc w' = ipc w_init /\ fds w' = fds w_init /\
    fd_handlers w' = fd_handlers w_init /\
    link_down w' = link_down w_init.
Proof.
  assert (Hk : is_Some (fds w_init !! 10)) by (vm_compute; eauto).
  assert (Hs : socket_contract w_init (ce_socket absent_peer)).
  { simpl. split; [lia | reflexivity]. }
  destruct (failed_attempt_before_swap_frame w_init _ absent_peer eq_refl
              ltac:(simpl; lia) Hk Hs eq_refl)
    as (r & w' & l & Hrun & Hr & Ei & Efd & Eh & El & _).
  exists r, w', l. auto 10.
Defined.

(** * The read callback *)

(** C8.  While the session is connected, a kick message for queue [q] makes
    one call, the notification of queue [q], after the call that received the
    message; the state is as before: the session is connected, the read handler
    is registered, the timers are untouched. *)
Theorem kick_notifies_queue_once w q :
  connected w = true ->
  exists c,
    ipc w = Some c /\
    fd_readable (node_fd c) (RecvMsg IPC_MESSAGE_TYPE_KICK q) w =
      Some (tt, w, [EvRecv c 0; EvNotify q]).
Proof.
  unfold connected. intros Hcon.
  destruct (ipc w) as [c|] eqn:Hc; [|discriminate].
  destruct (fd_handlers w !! node_fd c) as [[]|] eqn:Hh; [|discriminate].
  exists c. split; [reflexivity|].
  unfold fd_readable, bind, get. rewrite Hh.
  rewrite (ipc_reader_msg w c IPC_MESSAGE_TYPE_KICK q Hc). reflexivity.
Qed.

(** A kick for queue 1 on the connected device. *)
Lemma kick_notifies_queue_once_witness :
  connected w_conn = true /\
  fd_readable 10 (RecvMsg IPC_MESSAGE_TYPE_KICK 1) w_conn =
    Some (tt, w_conn,
          [EvRecv {| node_nid := 7; node_fd := 10; node_ram_fd := 9;
                     node_ram_size := 4096 |} 0;
           EvNotify 1]).
Proof.
  assert (Hcon : connected w_conn = true) by reflexivity.
  destruct (kick_notifies_queue_once w_conn 1 Hcon) as (c & Hc & Hrun).
  split; [exact Hcon|].
  assert (E : c = {| node_nid := 7; node_fd := 10; node_ram_fd := 9;
                     node_ram_size := 4096 |}).
  { simpl in Hc. inversion Hc. reflexivity. }
  subst c. exact Hrun.
Defined.

(** * Initialisation failures *)

Lemma ipc_init_fails e p n i w :
  init_fails e = true ->
  socket_contract w (ie_socket e) -> outcome_contract (ie_node_init e) ->
  exists w' l,
    ipc_init e p n i w = Some (tt, w', l) /\
    ipc w' = ipc w /\ ts w' = ts w /\ timers w' = timers w /\
    fd_handlers w' = fd_handlers w /\ link_down w' = link_down w /\
    clock_ms w' = clock_ms w /\
    existsb is_new_timer l = false /\ existsb is_arm l = false /\
    existsb is_connect l = false /\
    existsb is_perror l = true /\
    last l = Some (EvStderr fatal_line) /\
    (ram_not_found e = true ->
     l = [EvPerror "failed to find ram addr"; EvStderr fatal_line]).
Proof.
  unfold init_fails, ram_not_found. intros Hf Hs Ho.
  assert (Hneg : forall z, 0 < z -> (- z =? 0) = false) by (intros; lia).
  destruct e as [lx blocks [fd|err] [|] [|e1]]; simpl in Hf, Hs, Ho |- *;
    run; destruct (ram_lookup _) as [rfd rsz]; simpl in Hf |- *;
    destruct (rfd =? -1); simpl in Hf |- *; try discriminate Hf.
  all: try match type of Hs with
           | _ /\ _ =>
               destruct Hs as [Hs0 Hs1];
               destruct (Z.ltb_spec fd 0) as [?|_]; [lia|]
           | _ => rewrite (Hneg _ Hs)
           end; simpl.
  all: try rewrite (Hneg _ Ho); simpl.
  all: try discriminate Hf.
  all: eexists _, _; split; [reflexivity|]; simpl.
  all: repeat split; try discriminate.
Qed.

(** C6 as stated fails in its last part.  [ipc_init] is a [void] function:
    what it gives back when the guest memory is not found is what it gives
    back when the initialisation succeeds. *)
Lemma init_failure_not_returned :
  ram_not_found no_ram = true /\ init_fails good_init = false /\
  result_of (ipc_init no_ram "/tmp/s" 7 1 boot) = Some tt /\
  result_of (ipc_init good_init "/tmp/s" 7 1 boot) = Some tt.
Proof. repeat split; vm_compute; reflexivity. Qed.

(** C6, amended.  When the guest memory is not found or the node cannot be
    allocated, [ipc_init] on a device without session stops: the failure is
    logged ([perror], then the line "Fatal error: ..." as the last call), no
    timer is created or armed, no connection is attempted, and afterwards no
    timer can expire: there is no retry.  The function returns nothing; the
    session slot, still empty, is what the caller can observe. *)
Theorem fatal_init_failure e p n i w :
  fresh_device w ->
  socket_contract w (ie_socket e) -> outcome_contract (ie_node_init e) ->
  ram_not_found e = true \/ alloc_fails e = true ->
  exists w' l,
    ipc_init e p n i w = Some (tt, w', l) /\
    ipc w' = None /\ timers w' = ∅ /\
    existsb is_new_timer l = false /\ existsb is_arm l = false /\
    existsb is_connect l = false /\
    (forall t e', timer_expires t e' w' = None) /\
    existsb is_perror l = true /\
    last l = Some (EvStderr fatal_line) /\
    (ram_not_found e = true ->
     l = [EvPerror "failed to find ram addr"; EvStderr fatal_line]).
Proof.
  intros (Hi & Hl & Hh & Htm) Hs Ho Hcase.
  assert (Hf : init_fails e = true).
  { unfold init_fails. destruct Hcase as [H|H].
    - unfold ram_not_found in H. rewrite H. reflexivity.
    - unfold alloc_fails in H. apply andb_true_iff in H.
      destruct H as (_ & H). apply orb_true_iff in H. destruct H as [->|H].
      + rewrite orb_true_r. reflexivity.
      + unfold is_failure in H. destruct (ie_node_init e); [discriminate|].
        apply orb_true_r. }
  destruct (ipc_init_fails e p n i w Hf Hs Ho)
    as (w' & l & H1 & H2 & _ & H3 & _ & _ & _ & H4 & H5 & H6 & H7 & H8 & H9).
  exists w', l. split; [exact H1|]. split; [congruence|].
  split; [congruence|]. split; [exact H4|]. split; [exact H5|].
  split; [exact H6|]. split; [|auto].
  intros t e'. unfold timer_expires, bind, get.
  rewrite H3, Htm, lookup_empty. reflexivity.
Qed.

(** [malloc] gives NULL on the device before [ipc_init]. *)
Lemma fatal_init_failure_witness :
  fresh_device boot /\ socket_contract boot (ie_socket no_memory) /\
  outcome_contract (ie_node_init no_memory) /\
  alloc_fails no_memory = true /\
  exists w',
    ipc_init no_memory "/tmp/s" 7 1 boot =
      Some (tt, w',
            [EvSocket 10; EvMalloc false; EvPerror "failed to malloc";
             EvStderr fatal_line]) /\
    ipc w' = None /\ timers w' = ∅ /\
    (forall t e', timer_expires t e' w' = None).
Proof.
  assert (Hs : socket_contract boot (ie_socket no_memory)).
  { simpl. split; [lia | reflexivity]. }
  destruct (fatal_init_failure no_memory "/tmp/s" 7 1 boot boot_fresh Hs
              Logic.I (or_intror eq_refl))
    as (w' & l & Hrun & Hi & Ht & _ & _ & _ & Hno & _).
  split; [exact boot_fresh|]. split; [exact Hs|]. split; [exact Logic.I|].
  split; [reflexivity|].
  exists w'. split; [|auto].
  assert (Hl : l = [EvSocket 10; EvMalloc false; EvPerror "failed to malloc";
                    EvStderr fatal_line]).
  { vm_compute in Hrun. inversion Hrun. reflexivity. }
  rewrite <- Hl. exact Hrun.
Defined.

(** C10.  When a step of the initialisation fails (guest memory not found,
    socket not opened, node not allocated, node not initialised), [ipc_init]
    returns with the session slot, the timer pointer, the timers, the read
    handlers and the link status as they were before the call: no timer is
    created, none is armed. *)
Theorem init_failure_leaves_no_session e p n i w :
  init_fails e = true ->
  socket_contract w (ie_socket e) -> outcome_contract (ie_node_init e) ->
  exists w' l,
    ipc_init e p n i w = Some (tt, w', l) /\
    ipc w' = ipc w /\ ts w' = ts w /\ timers w' = timers w /\
    fd_handlers w' = fd_handlers w /\ link_down w' = link_down w /\
    existsb is_new_timer l = false /\ existsb is_arm l = false.
Proof.
  intros Hf Hs Ho.
  destruct (ipc_init_fails e p n i w Hf Hs Ho)
    as (w' & l & H1 & H2 & H3 & H4 & H5 & H6 & _ & H7 & H8 & _).
  exists w', l. auto 10.
Qed.

(** [ipc_node_init] refuses on the device before [ipc_init]. *)
Lemma init_failure_leaves_no_session_witness :
  init_fails node_init_refused = true /\
  socket_contract boot (ie_socket node_init_refused) /\
  outcome_contract (ie_node_init node_init_refused) /\
  exists w' l,
    ipc_init node_init_refused "/tmp/s" 7 1 boot = Some (tt, w', l) /\
    ipc w' = None /\ ts w' = None /\ timers w' = ∅.
Proof.
  assert (Hs : socket_contract boot (ie_socket node_init_refused)).
  { simpl. split; [lia | reflexivity]. }
  assert (Ho : outcome_contract (ie_node_init node_init_refused)).
  { simpl. lia. }
  destruct (init_failure_leaves_no_session node_init_refused "/tmp/s" 7 1
              boot eq_refl Hs Ho)
    as (w' & l & Hrun & Hi & Hts & Htm & _).
  split; [reflexivity|]. split; [exact Hs|]. split; [exact Ho|].
  exists w', l. auto.
Defined.

(** * Teardown *)

(** C7.  From a device that starts without session, in every reachable state
    (before the first connection, connected, after a failed initialisation,
    after a teardown) [ipc_exit] returns, and a second [ipc_exit] right after
    it returns with the same state and makes no call at all.  On a device with
    a session the first call releases what is held, each once: the timer, which
    was live, the descriptor of the session, which was open, and the node.  On
    a device without session the first call already does nothing. *)
Theorem ipc_exit_idempotent w0 w :
  fresh_device w0 -> reachable w0 w ->
  exists w1 l1,
    ipc_exit w = Some (tt, w1, l1) /\
    ipc w1 = None /\ connected w1 = false /\
    ipc_exit w1 = Some (tt, w1, []) /\
    (ipc w = None -> w1 = w /\ l1 = []) /\
    (forall c, ipc w = Some c ->
       exists t,
         ts w = Some t /\ is_Some (timers w !! t) /\
         is_Some (fds w !! node_fd c) /\
         timers w1 !! t = None /\ fds w1 !! node_fd c = None /\
         fd_handlers w1 !! node_fd c = None /\ link_down w1 = true /\
         filter (fun e => is_release e = true) l1 =
           [EvFreeTimer t; EvClose (node_fd c); EvFree]).
Proof.
  intros H0 Hr. pose proof (reachable_inv w0 w H0 Hr) as I.
  destruct (ipc w) as [c|] eqn:Hc.
  - destruct (inv_timer w I c Hc) as (t & Ht & [d Hd]).
    destruct (inv_fd w I c Hc) as (_ & Hk).
    exists (after_exit c t w). eexists.
    split; [apply (ipc_exit_session w c t d Hc Ht Hd)|].
    split; [reflexivity|]. split; [reflexivity|].
    split; [apply ipc_exit_no_session; reflexivity|].
    split; [discriminate|].
    intros c0 Hc0. inversion Hc0; subst c0. exists t. simpl.
    rewrite !lookup_delete_eq. repeat split; eauto.
  - exists w, []. split; [apply ipc_exit_no_session; assumption|].
    split; [assumption|]. split; [unfold connected; rewrite Hc; reflexivity|].
    split; [apply ipc_exit_no_session; assumption|].
    split; [auto|]. discriminate.
Qed.

(** Teardown before the first connection, then teardown again. *)
Lemma ipc_exit_idempotent_witness :
  fresh_device boot /\ reachable boot w_init /\
  exists w1 l1,
    ipc_exit w_init = Some (tt, w1, l1) /\
    ipc_exit w1 = Some (tt, w1, []) /\
    filter (fun e => is_release e = true) l1 =
      [EvFreeTimer 0; EvClose 10; EvFree].
Proof.
  destruct (ipc_exit_idempotent boot w_init boot_fresh reachable_w_init)
    as (w1 & l1 & Hrun & _ & _ & Hagain & _ & Hsess).
  destruct (Hsess _ eq_refl) as (t & Ht & _ & _ & _ & _ & _ & _ & Hrel).
  simpl in Ht. inversion Ht; subst t.
  split; [exact boot_fresh|]. split; [exact reachable_w_init|].
  exists w1, l1. auto.
Defined.

(** * Further properties of the functions *)

(** ** The lookup of the guest memory *)

Lemma find_ram_from blocks : forall acc,
  fold_left
    (fun acc block =>
       if blk_offset block =? 0 then (blk_fd block, blk_length block)
       else acc)
    blocks acc =
  match last_ram_block blocks with
  | Some b => (blk_fd b, blk_length b)
  | None => acc
  end.
Proof.
  unfold last_ram_block.
  induction blocks as [|b bs IH]; intros acc; [reflexivity|].
  simpl fold_left. rewrite IH.
  destruct (Z.eqb_spec (blk_offset b) 0) as [E|E].
  - rewrite filter_cons_True by assumption. rewrite last_cons.
    destruct (last (filter _ bs)); reflexivity.
  - rewrite filter_cons_False by assumption. reflexivity.
Qed.

(** X1.  The loop over [ram_list] has no [break]: the guest memory is the last
    block at offset 0, and the descriptor is -1 when no block is at offset
    0. *)
Theorem find_ram_last_block blocks :
  find_ram blocks =
    match last_ram_block blocks with
    | Some b => (blk_fd b, blk_length b)
    | None => (-1, 0)
    end.
Proof. unfold find_ram. apply find_ram_from. Qed.

(** ** Initialisation *)

Lemma ipc_init_config e p n i w w' l :
  ipc_init e p n i w = Some (tt, w', l) ->
  socketpath w' = p /\ nid w' = n /\ cinterval w' = i.
Proof.
  destruct e as [lx blocks [fd|err] [|] [|e1]];
    run; destruct (ram_lookup _) as [rfd rsz]; simpl;
    destruct (rfd =? -1); simpl.
  all: try destruct (fd <? 0); simpl.
  all: try destruct (- err =? 0); simpl.
  all: try destruct (- e1 =? 0); simpl.
  all: try destruct (- errno w =? 0); simpl.
  all: rewrite ?lookup_insert_eq; simpl.
  all: intros H; inversion H; subst; clear H; simpl.
  all: repeat split.
Qed.

(** X2.  [ipc_init] on a device without session returns; it leaves a session
    exactly when no step of [init_client] fails.  The session then holds the
    node id, the descriptor opened by [ipc_socket] and the guest memory found
    by the lookup, a new timer is pending one interval ahead, and neither the
    read handlers nor the link status are touched.  The three configuration
    fields are stored in both cases. *)
Theorem ipc_init_session_iff e p n i w :
  ipc w = None ->
  socket_contract w (ie_socket e) -> outcome_contract (ie_node_init e) ->
  exists w' l,
    ipc_init e p n i w = Some (tt, w', l) /\
    (is_Some (ipc w') <-> init_fails e = false) /\
    socketpath w' = p /\ nid w' = n /\ cinterval w' = i /\
    fd_handlers w' = fd_handlers w /\ link_down w' = link_down w /\
    (init_fails e = false ->
     exists fd t,
       ie_socket e = SockOk fd /\
       ipc w' = Some {| node_nid := n; node_fd := fd;
                        node_ram_fd := fst (ram_lookup e);
                        node_ram_size := snd (ram_lookup e) |} /\
       fds w' !! fd = Some (sock_count w) /\
       timers w !! t = None /\ ts w' = Some t /\
       retry_pending w' = Some (clock_ms w + interval_ms i)).
Proof.
  intros Hn Hs Ho. destruct (init_fails e) eqn:Hf.
  - destruct (ipc_init_fails e p n i w Hf Hs Ho)
      as (w' & l & Hrun & Hi & _ & _ & Hh & Hl & _).
    destruct (ipc_init_config _ _ _ _ _ _ _ Hrun) as (Hp & Hnid & Hci).
    exists w', l. split; [exact Hrun|]. split.
    { rewrite Hi, Hn. split; [intros [x Hx]|]; discriminate. }
    repeat (split; [assumption|]). discriminate.
  - destruct (ipc_init_succeeds e p n i w Hf) as (fd & Hsock & Hfd & Hrun).
    destruct (ipc_init_config _ _ _ _ _ _ _ Hrun) as (Hp & Hnid & Hci).
    eexists _, _. split; [exact Hrun|]. split.
    { simpl. split; eauto. }
    repeat (split; [assumption || reflexivity|]).
    intros _. exists fd, (fresh (dom (timers w))).
    split; [assumption|]. split; [reflexivity|]. simpl.
    split; [apply lookup_insert_eq|].
    split; [apply not_elem_of_dom; apply is_fresh|].
    split; [reflexivity|].
    unfold retry_pending. simpl. rewrite lookup_insert_eq. reflexivity.
Qed.

(** A successful initialisation on the device before [ipc_init]. *)
Lemma ipc_init_session_iff_witness :
  ipc boot = None /\ socket_contract boot (ie_socket good_init) /\
  outcome_contract (ie_node_init good_init) /\
  exists w' l,
    ipc_init good_init "/tmp/s" 7 1 boot = Some (tt, w', l) /\
    is_Some (ipc w') /\ retry_pending w' = Some 1000.
Proof.
  assert (Hs : socket_contract boot (ie_socket good_init)).
  { simpl. split; [lia | reflexivity]. }
  destruct (ipc_init_session_iff good_init "/tmp/s" 7 1 boot eq_refl Hs
              Logic.I)
    as (w' & l & Hrun & Hiff & _ & _ & _ & _ & _ & Hok).
  destruct (Hok eq_refl) as (fd & t & _ & _ & _ & _ & _ & Hp).
  split; [reflexivity|]. split; [exact Hs|]. split; [exact Logic.I|].
  exists w', l. split; [exact Hrun|]. split; [apply Hiff; reflexivity|].
  exact Hp.
Defined.

(** X8.  When [malloc] gives NULL or [ipc_node_init] refuses, [init_client]
    returns without closing the descriptor that [ipc_socket] has just opened:
    after [ipc_init] the session slot is as before and the descriptor is still
    open. *)
Theorem init_failure_keeps_descriptor_open e p n i w fd :
  ram_not_found e = false -> ie_socket e = SockOk fd -> 0 <= fd ->
  outcome_contract (ie_node_init e) ->
  ie_malloc e = false \/ is_failure (ie_node_init e) = true ->
  exists w' l,
    ipc_init e p n i w = Some (tt, w', l) /\
    ipc w' = ipc w /\
    fds w' = <[fd := sock_count w]> (fds w) /\
    existsb is_close l = false.
Proof.
  unfold ram_not_found. intros Hram Hsock Hfd Ho Hcase.
  assert (Hneg : forall z, 0 < z -> (- z =? 0) = false) by (intros; lia).
  assert (Hlt : (fd <? 0) = false) by lia.
  destruct e as [lx blocks s mo o]; simpl in Hram, Hsock, Ho, Hcase.
  subst s. run. destruct (ram_lookup _) as [rfd rsz]. simpl in Hram |- *.
  rewrite Hram, Hlt. simpl.
  destruct mo; simpl.
  - destruct Hcase as [Hc|Hc]; [discriminate|].
    destruct o as [|e1]; [discriminate|]. simpl in Ho |- *.
    rewrite (Hneg _ Ho). simpl.
    eexists _, _. split; [reflexivity|]. simpl. auto.
  - eexists _, _. split; [reflexivity|]. simpl. auto.
Qed.

(** [malloc] gives NULL on the device before [ipc_init]: descriptor 10 stays
    open. *)
Lemma init_failure_keeps_descriptor_open_witness :
  exists w' l,
    ipc_init no_memory "/tmp/s" 7 1 boot = Some (tt, w', l) /\
    ipc w' = None /\ fds w' !! 10 = Some 3%nat /\ fds boot !! 10 = None.
Proof.
  destruct (init_failure_keeps_descriptor_open no_memory "/tmp/s" 7 1 boot 10
              eq_refl eq_refl ltac:(lia) Logic.I (or_introl eq_refl))
    as (w' & l & Hrun & Hi & Hfds & _).
  exists w', l. split; [exact Hrun|]. split; [exact Hi|].
  split; [|reflexivity]. rewrite Hfds. apply lookup_insert_eq.
Defined.

(** ** The read callback, further *)

(** X3.  While the session is connected, a message of a type other than the
    kick is logged and ignored: one line on [stderr], no queue notification,
    and the state is as before (still connected, nothing armed). *)
Theorem unknown_message_ignored w code q :
  connected w = true ->
  exists c,
    ipc w = Some c /\
    fd_readable (node_fd c) (RecvMsg (IPC_MESSAGE_TYPE_other code) q) w =
      Some (tt, w,
            [EvRecv c 0; EvStderr ("invalid ipc message type" +:+ nl)]).
Proof.
  unfold connected. intros Hcon.
  destruct (ipc w) as [c|] eqn:Hc; [|discriminate].
  destruct (fd_handlers w !! node_fd c) as [[]|] eqn:Hh; [|discriminate].
  exists c. split; [reflexivity|].
  unfold fd_readable, bind, get. rewrite Hh.
  rewrite (ipc_reader_msg w c (IPC_MESSAGE_TYPE_other code) q Hc).
  reflexivity.
Qed.

(** A message of type 9 on the connected device. *)
Lemma unknown_message_ignored_witness :
  connected w_conn = true /\
  exists l,
    fd_readable 10 (RecvMsg (IPC_MESSAGE_TYPE_other 9) 1) w_conn =
      Some (tt, w_conn, l) /\
    existsb (fun e => match e with EvNotify _ => true | _ => false end) l
    = false.
Proof.
  assert (Hcon : connected w_conn = true) by reflexivity.
  destruct (unknown_message_ignored w_conn 9 1 Hcon) as (c & Hc & Hrun).
  split; [exact Hcon|].
  assert (E : node_fd c = 10) by (simpl in Hc; inversion Hc; reflexivity).
  rewrite E in Hrun. eexists. split; [exact Hrun|]. reflexivity.
Defined.

Lemma ipc_reader_frame r w u w' l :
  ipc_reader r w = Some (u, w', l) ->
  ipc w' = ipc w /\ fds w' = fds w /\ ts w' = ts w /\
  sock_count w' = sock_count w /\ clock_ms w' = clock_ms w /\
  cinterval w' = cinterval w /\ existsb is_close l = false.
Proof.
  destruct (ipc w) as [c|] eqn:Hc.
  - destruct r as [mtype curq | err].
    + rewrite (ipc_reader_msg w c mtype curq Hc).
      intros H; inversion H; subst.
      destruct mtype; simpl; repeat split; try assumption; try reflexivity.
    + run. rewrite Hc. simpl.
      destruct (ts w) as [t|] eqn:Ht; simpl; [|discriminate].
      destruct (timers w !! t); simpl; [|discriminate].
      intros H; inversion H; subst. simpl.
      repeat split; try assumption; try reflexivity.
  - rewrite (ipc_reader_no_session w r Hc).
    intros H; inversion H; subst. repeat split; try assumption; try reflexivity.
Qed.

(** X4.  In every reachable state [ipc_reader] returns, whatever it receives,
    and it never closes a descriptor: the descriptor table and the session are
    as before.  After a failed read the descriptor of the session is shut down
    but still open, so that the next attempt can swap a new socket onto it. *)
Theorem ipc_reader_keeps_descriptors w0 w r :
  fresh_device w0 -> reachable w0 w ->
  exists w' l,
    ipc_reader r w = Some (tt, w', l) /\
    ipc w' = ipc w /\ fds w' = fds w /\ existsb is_close l = false /\
    (forall c, ipc w = Some c -> is_Some (fds w' !! node_fd c)).
Proof.
  intros H0 Hr. pose proof (reachable_inv w0 w H0 Hr) as I.
  assert (Hrun : exists w' l, ipc_reader r w = Some (tt, w', l)).
  { destruct (ipc w) as [c|] eqn:Hc.
    - destruct (inv_timer w I c Hc) as (t & Ht & [d Hd]).
      destruct r as [mtype curq | err].
      + rewrite (ipc_reader_msg w c mtype curq Hc). eauto.
      + rewrite (ipc_reader_fail w c t d err Hc Ht Hd). eauto.
    - rewrite (ipc_reader_no_session w r Hc). eauto. }
  destruct Hrun as (w' & l & Hrun).
  destruct (ipc_reader_frame _ _ _ _ _ Hrun) as (Hi & Hf & _ & _ & _ & _ & Hcl).
  exists w', l. split; [exact Hrun|]. split; [exact Hi|].
  split; [exact Hf|]. split; [exact Hcl|].
  intros c Hc. rewrite Hf. apply (inv_fd w I c Hc).
Qed.

(** A failed read on the connected device: descriptor 10 stays open. *)
Lemma ipc_reader_keeps_descriptors_witness :
  fresh_device boot /\ reachable boot w_conn /\
  exists w' l,
    ipc_reader (RecvFail 104) w_conn = Some (tt, w', l) /\
    fds w' = fds w_conn /\ is_Some (fds w' !! 10).
Proof.
  destruct (ipc_reader_keeps_descriptors boot w_conn (RecvFail 104)
              boot_fresh reachable_w_conn)
    as (w' & l & Hrun & _ & Hf & _ & Hopen).
  split; [exact boot_fresh|]. split; [exact reachable_w_conn|].
  exists w', l. split; [exact Hrun|]. split; [exact Hf|].
  exact (Hopen _ eq_refl).
Defined.

(** ** Read handlers and retry timer in the reachable states *)

(** X5.  In every reachable state at most one read handler is registered:
    [ipc_reader] on the descriptor of the session when the session is
    connected, none otherwise (before the first connection, after a failed
    read, after [ipc_exit]). *)
Theorem at_most_one_read_handler w0 w :
  fresh_device w0 -> reachable w0 w ->
  (connected w = true ->
   exists c, ipc w = Some c /\
             fd_handlers w = {[ node_fd c := ipc_reader_cb ]}) /\
  (connected w = false -> fd_handlers w = ∅).
Proof.
  intros H0 Hr. pose proof (reachable_inv w0 w H0 Hr) as I.
  unfold connected. split; intros Hcon.
  - destruct (ipc w) as [c|] eqn:Hc; [|discriminate].
    destruct (fd_handlers w !! node_fd c) as [[]|] eqn:Hh; [|discriminate].
    exists c. split; [reflexivity|]. apply map_eq. intros fd.
    destruct (decide (node_fd c = fd)) as [<-|Hne].
    + rewrite lookup_singleton_eq. exact Hh.
    + rewrite lookup_singleton_ne by assumption.
      destruct (fd_handlers w !! fd) eqn:E; [|reflexivity].
      destruct (inv_handlers w I fd) as (c0 & Hc0 & Hfd); [eauto|].
      congruence.
  - apply map_eq. intros fd. rewrite lookup_empty.
    destruct (fd_handlers w !! fd) as [[]|] eqn:E; [|reflexivity].
    destruct (inv_handlers w I fd) as (c0 & Hc0 & Hfd); [eauto|].
    rewrite Hc0 in Hcon. subst fd. rewrite E in Hcon. discriminate.
Qed.

(** On the connected device the one handler is on descriptor 10. *)
Lemma at_most_one_read_handler_witness :
  fresh_device boot /\ reachable boot w_conn /\
  fd_handlers w_conn = {[ 10 := ipc_reader_cb ]}.
Proof.
  destruct (at_most_one_read_handler boot w_conn boot_fresh reachable_w_conn)
    as (Hone & _).
  destruct (Hone eq_refl) as (c & Hc & Hh).
  assert (E : node_fd c = 10) by (simpl in Hc; inversion Hc; reflexivity).
  rewrite E in Hh.
  split; [exact boot_fresh|]. split; [exact reachable_w_conn|]. exact Hh.
Defined.

Lemma step_pending w l w' :
  session_inv w -> pending_when_disconnected w -> step w l w' ->
  pending_when_disconnected w'.
Proof.
  intros I P Hstep. unfold pending_when_disconnected in *.
  destruct Hstep as
    [e p n i w w' l Hn Hs Ho Hrun | t e w w' l Hs Hrun | fd r w w' l Hrun
    | w w' l Hrun | dt w w' l Hrun].
  - destruct (ipc_init_frame _ _ _ _ _ _ _ Hs Ho Hrun)
      as (_ & _ & [(_ & Ei & _) | (_ & c & t & Ei & _ & _ & Ets & _ & Etm)]).
    + intros c Hc. congruence.
    + intros c0 _ _. unfold retry_pending.
      rewrite Ets, Etm, lookup_insert_eq. eauto.
  - destruct (timer_expires_inv _ _ _ _ _ Hrun) as (d & Hd & Hrun1).
    destruct (inv_timers w I t) as (Hts & [c Hc]); [eauto|].
    destruct (ipc_connect_to_server_inv _ _ _ _ Hrun1)
      as (r & w1 & l1 & Hcts & Hrest).
    apply connect_to_server_frame in Hcts; [|exact Hs]. simpl in Hcts.
    destruct Hcts as (Ets & Etm & Eck & Eci & Ei & _ & Hcase).
    intros c0 Hc0 Hcon.
    destruct Hrest as [(Hr & -> & _) | (Hr & l2 & Hsc & _)].
    + exfalso. destruct Hcase as [(Hr' & _) | (c1 & Hc1 & _ & Eh & _)];
        [contradiction|].
      unfold connected in Hcon. rewrite Ei in Hcon. simpl in Hcon, Hc1.
      rewrite Hc1, Eh, lookup_insert_eq in Hcon. discriminate.
    + apply ipc_set_connector_run in Hsc.
      destruct Hsc as (t0 & d0 & Ht0 & Hd0 & -> & _).
      unfold retry_pending. simpl. rewrite Ht0, lookup_insert_eq. eauto.
  - destruct (fd_readable_inv _ _ _ _ _ Hrun) as (Hh & Hrd).
    destruct (inv_handlers w I fd) as (c & Hc & Hfd); [eauto|].
    destruct (inv_timer w I c Hc) as (t & Ht & [d Hd]).
    destruct r as [mtype curq | err].
    + rewrite (ipc_reader_msg w c mtype curq Hc) in Hrd.
      inversion Hrd; subst. exact P.
    + rewrite (ipc_reader_fail w c t d err Hc Ht Hd) in Hrd.
      inversion Hrd; subst w' l. intros c0 _ _.
      unfold retry_pending. simpl. rewrite Ht, lookup_insert_eq. eauto.
  - destruct (ipc w) as [c|] eqn:Hc.
    + destruct (inv_timer w I c Hc) as (t & Ht & [d Hd]).
      rewrite (ipc_exit_session w c t d Hc Ht Hd) in Hrun.
      inversion Hrun; subst w' l. intros c0 Hc0. discriminate.
    + rewrite (ipc_exit_no_session w Hc) in Hrun.
      inversion Hrun; subst. rewrite Hc. exact P.
  - unfold time_passes, bind, get, modify in Hrun. simpl in Hrun.
    inversion Hrun; subst w' l. exact P.
Qed.

Lemma reachable_pending w0 w :
  fresh_device w0 -> reachable w0 w -> pending_when_disconnected w.
Proof.
  intros H0 Hr. induction Hr as [|w l w' Hr IH Hs].
  - intros c Hc. destruct H0 as (Hi & _). congruence.
  - eapply step_pending; [|exact IH|exact Hs].
    eapply reachable_inv; eassumption.
Qed.

(** X6.  In every reachable state with a session, the retry timer is pending
    exactly when the session is not connected: a disconnected session always
    has its next attempt scheduled, and while the session is connected no
    timer can expire, so no attempt is made on top of a live connection. *)
Theorem retry_pending_iff_disconnected w0 w c :
  fresh_device w0 -> reachable w0 w -> ipc w = Some c ->
  (is_Some (retry_pending w) <-> connected w = false) /\
  (connected w = true -> forall t e, timer_expires t e w = None).
Proof.
  intros H0 Hr Hc. pose proof (reachable_inv w0 w H0 Hr) as I.
  pose proof (reachable_pending w0 w H0 Hr) as P.
  split; [split|].
  - intros [d Hd]. unfold retry_pending in Hd.
    destruct (ts w) as [t|] eqn:Ht; [|discriminate].
    destruct (timers w !! t) as [x|] eqn:Hx; [|discriminate].
    subst x. exact (inv_pending w I t d Hx).
  - intros Hcon. exact (P c Hc Hcon).
  - intros Hcon t e. unfold timer_expires, bind, get.
    destruct (timers w !! t) as [[d|]|] eqn:Hd; try reflexivity.
    rewrite (inv_pending w I t d Hd) in Hcon. discriminate.
Qed.

(** After [ipc_init] the timer is pending; on the connected device it is
    not, and no timer expires. *)
Lemma retry_pending_iff_disconnected_witness :
  fresh_device boot /\ reachable boot w_conn /\
  retry_pending w_init = Some 1000 /\ connected w_init = false /\
  retry_pending w_conn = None /\ connected w_conn = true /\
  timer_expires 0%nat absent_peer w_conn = None.
Proof.
  destruct (retry_pending_iff_disconnected boot w_conn _ boot_fresh
              reachable_w_conn eq_refl) as (_ & Hno).
  split; [exact boot_fresh|]. split; [exact reachable_w_conn|].
  repeat (split; [reflexivity|]). exact (Hno eq_refl 0%nat absent_peer).
Defined.

(** ** Successful attempts and reconnection *)

Lemma connect_to_server_succeeds e w c :
  ipc w = Some c -> 0 <= node_fd c -> is_Some (fds w !! node_fd c) ->
  socket_contract w (ce_socket e) -> attempt_fails e = false ->
  exists fd l,
    ce_socket e = SockOk fd /\
    connect_to_server e w =
      Some (0,
            set_fd_handlers (<[node_fd c := ipc_reader_cb]> (fd_handlers w))
              (set_link_down false
                 (set_sock_count (S (sock_count w))
                    (set_fds (<[node_fd c := sock_count w]> (fds w)) w))),
            l) /\
    existsb is_arm l = false.
Proof.
  intros Hc H0 Hk Hs Hf.
  assert (Hnf : (node_fd c <? 0) = false) by lia.
  unfold attempt_fails, fails_before_swap, socket_fails in Hf.
  destruct e as [m [fd|err] [|e1] [|e2] [|e3] [|e4]]; simpl in Hs, Hf;
    try discriminate Hf.
  destruct Hs as [Hs0 Hs1].
  assert (Hne : fd <> node_fd c)
    by (intros ->; rewrite Hs1 in Hk; destruct Hk; discriminate).
  assert (Hlt : (fd <? 0) = false) by lia.
  exists fd. eexists. split; [reflexivity|].
  run. rewrite ?Hc, ?Hlt; simpl; rewrite ?Hc, ?Hnf; simpl.
  rewrite lookup_insert_eq.
  rewrite delete_insert_ne, delete_insert_eq, delete_id by auto.
  split; reflexivity.
Qed.

(** X10.  A successful attempt changes the descriptor table at one place
    only: the descriptor of the session names the new socket; every other
    descriptor is as before and the descriptor opened for the attempt is free
    again.  The timers, the timer pointer, the clock and the configuration are
    untouched, and the retry timer is not armed. *)
Theorem successful_attempt_frame e w c :
  ipc w = Some c -> 0 <= node_fd c -> is_Some (fds w !! node_fd c) ->
  socket_contract w (ce_socket e) -> attempt_fails e = false ->
  exists w' l,
    connect_to_server e w = Some (0, w', l) /\
    fds w' = <[node_fd c := sock_count w]> (fds w) /\
    dom (fds w') = dom (fds w) /\
    (forall fd, ce_socket e = SockOk fd -> fds w' !! fd = None) /\
    ipc w' = ipc w /\ ts w' = ts w /\ timers w' = timers w /\
    clock_ms w' = clock_ms w /\ cinterval w' = cinterval w /\
    existsb is_arm l = false.
Proof.
  intros Hc H0 Hk Hs Hf.
  destruct (connect_to_server_succeeds e w c Hc H0 Hk Hs Hf)
    as (fd & l & Hsock & Hrun & Harm).
  eexists _, l. split; [exact Hrun|]. simpl.
  split; [reflexivity|]. split.
  { rewrite dom_insert_L. apply elem_of_dom in Hk.
    apply subseteq_union_1_L. apply singleton_subseteq_l. exact Hk. }
  split.
  { intros fd' Hfd'. rewrite Hsock in Hfd', Hs. inversion Hfd'; subst fd'.
    simpl in Hs. destruct Hs as [_ Hs1].
    rewrite lookup_insert_ne; [assumption|].
    intros E. rewrite E, Hs1 in Hk. destruct Hk; discriminate. }
  repeat split; assumption.
Qed.

(** A peer that answers, at the first timer after [ipc_init]. *)
Lemma successful_attempt_frame_witness :
  exists w' l,
    connect_to_server good_connect w_init = Some (0, w', l) /\
    fds w' = <[10 := 4%nat]> (fds w_init) /\
    dom (fds w') = dom (fds w_init) /\ timers w' = timers w_init.
Proof.
  assert (Hk : is_Some (fds w_init !! 10)) by (vm_compute; eauto).
  assert (Hs : socket_contract w_init (ce_socket good_connect)).
  { simpl. split; [lia | reflexivity]. }
  destruct (successful_attempt_frame good_connect w_init _ eq_refl
              ltac:(simpl; lia) Hk Hs eq_refl)
    as (w' & l & Hrun & Hf & Hd & _ & _ & _ & Ht & _).
  exists w', l. auto.
Defined.

(** X11.  Reconnection.  From a connected state, a failed read followed by
    the expiry of the retry timer with a peer that answers gives a connected
    state again: the link is UP, the read handlers are those of before the
    failure (the handler of the session, on the same descriptor), the session
    is the same, no retry is pending, and the descriptor of the session names
    the new socket. *)
Theorem reconnect_after_read_failure w0 w err e :
  fresh_device w0 -> reachable w0 w -> connected w = true ->
  socket_contract w (ce_socket e) -> attempt_fails e = false ->
  exists c t w1 l1 w2 l2,
    ipc w = Some c /\ ts w = Some t /\
    fd_readable (node_fd c) (RecvFail err) w = Some (tt, w1, l1) /\
    connected w1 = false /\ link_down w1 = true /\
    timer_expires t e w1 = Some (tt, w2, l2) /\
    connected w2 = true /\ link_down w2 = false /\
    ipc w2 = ipc w /\ fd_handlers w2 = fd_handlers w /\
    retry_pending w2 = None /\
    fds w2 !! node_fd c = Some (sock_count w).
Proof.
  intros H0 Hr Hcon Hs Hf. pose proof (reachable_inv w0 w H0 Hr) as I.
  destruct (connected_session w I Hcon) as (c & t & d & Hc & Hh & Ht & Hd).
  destruct (inv_fd w I c Hc) as (Hfd0 & Hk).
  set (w1 := after_read_failure err c t w).
  set (dl := clock_ms w + interval_ms (cinterval w)).
  set (w1' := set_timers (<[t := None]> (timers w1))
                (set_clock_ms (Z.max (clock_ms w1) dl) w1)).
  destruct (connect_to_server_succeeds e w1' c Hc Hfd0 Hk Hs Hf)
    as (fd & l & Hsock & Hrun & _).
  exists c, t, w1. eexists. eexists. eexists.
  split; [exact Hc|]. split; [exact Ht|]. split.
  { unfold fd_readable, bind, get. rewrite Hh.
    rewrite (ipc_reader_fail w c t d err Hc Ht Hd). reflexivity. }
  split.
  { unfold connected. simpl. rewrite Hc, lookup_delete_eq. reflexivity. }
  split; [reflexivity|]. split.
  { unfold timer_expires, bind, get, modify.
    change (timers w1 !! t) with
      ((<[t := Some dl]> (timers w)) !! t).
    rewrite lookup_insert_eq. fold w1'.
    unfold ipc_connect_to_server, bind. rewrite Hrun. simpl. reflexivity. }
  simpl. split.
  { unfold connected. simpl. rewrite Hc, lookup_insert_eq. reflexivity. }
  split; [reflexivity|]. split; [reflexivity|]. split.
  { rewrite insert_delete_eq. apply insert_id. exact Hh. }
  split.
  { unfold retry_pending. simpl. rewrite Ht, lookup_insert_eq. reflexivity. }
  apply lookup_insert_eq.
Qed.

(** The connected device loses its peer and finds it again. *)
Lemma reconnect_after_read_failure_witness :
  fresh_device boot /\ reachable boot w_conn /\ connected w_conn = true /\
  exists l1 w2 l2,
    fd_readable 10 (RecvFail 104) w_conn = Some (tt, w_down, l1) /\
    timer_expires 0%nat good_connect w_down = Some (tt, w2, l2) /\
    connected w2 = true /\ link_down w2 = false /\
    fd_handlers w2 = fd_handlers w_conn.
Proof.
  assert (Hs : socket_contract w_conn (ce_socket good_connect)).
  { simpl. split; [lia | reflexivity]. }
  destruct (reconnect_after_read_failure boot w_conn 104 good_connect
              boot_fresh reachable_w_conn eq_refl Hs eq_refl)
    as (c & t & w1 & l1 & w2 & l2 & Hc & Ht & Hrd & _ & _ & Hte & Hcon & Hl
        & _ & Hh & _).
  assert (Ec : node_fd c = 10) by (simpl in Hc; inversion Hc; reflexivity).
  assert (Et : t = 0%nat) by (simpl in Ht; inversion Ht; reflexivity).
  rewrite Ec in Hrd. subst t.
  assert (Ew : w1 = w_down).
  { vm_compute in Hrd. inversion Hrd. reflexivity. }
  subst w1.
  split; [exact boot_fresh|]. split; [exact reachable_w_conn|].
  split; [reflexivity|]. exists l1, w2, l2. auto.
Defined.

(** ** Retries *)

(** X7.  Failed attempts do not accumulate descriptors: after any number of
    attempts that fail (at any step), every attempt has been made, the set of
    open descriptors is the one before the first attempt, the read handlers and
    the session are as before, and the retry timer is pending again. *)
Theorem failed_attempts_leak_no_descriptor es : forall w c t d,
  ipc w = Some c -> 0 <= node_fd c -> is_Some (fds w !! node_fd c) ->
  ts w = Some t -> timers w !! t = Some (Some d) ->
  Forall (fun e => socket_contract w (ce_socket e) /\ attempt_fails e = true)
    es ->
  exists a w',
    retry_loop es w = Some (a, w') /\
    List.length a = List.length es /\
    dom (fds w') = dom (fds w) /\
    fd_handlers w' = fd_handlers w /\ ipc w' = ipc w /\
    is_Some (retry_pending w').
Proof.
  induction es as [|e es IH]; intros w c t d Hc H0 Hk Ht Hd Hall.
  - exists [], w. repeat split.
    unfold retry_pending. rewrite Ht, Hd. eauto.
  - inversion Hall as [|e' es' [Hs Hf] Hall']; subst.
    set (w1 := set_timers (<[t := None]> (timers w))
                 (set_clock_ms (Z.max (clock_ms w) d) w)).
    destruct (ipc_connect_to_server_fails e w1 c t None)
      as (r & w2 & l1 & _ & _ & Hab & Hrun); try assumption.
    { apply lookup_insert_eq. }
    destruct Hab as (Ei & Ets & Etm & Eck & Eci & Eh & El & _ & _ & _
                     & _ & Hfresh & _ & Hpre & Hswap).
    simpl in Ei, Ets, Etm, Eck, Eci, Eh, El, Hrun, Hfresh.
    match type of Hrun with _ = Some (_, ?x, _) => set (w3 := x) in * end.
    assert (Hfds : fds w2 = fds w \/
                   fds w2 = <[node_fd c := sock_count w]> (fds w)).
    { destruct (fails_before_swap e) eqn:Eb;
        [|destruct (is_failure (ce_dup2 e)) eqn:Ed].
      - left. apply Hpre. reflexivity.
      - left. apply Hpre. reflexivity.
      - right. apply Hswap; reflexivity. }
    assert (Hdom : dom (fds w3) = dom (fds w)).
    { simpl. destruct Hfds as [->| ->]; [reflexivity|].
      rewrite dom_insert_L. apply elem_of_dom in Hk.
      apply subseteq_union_1_L. apply singleton_subseteq_l. exact Hk. }
    assert (Hk3 : is_Some (fds w3 !! node_fd c)).
    { apply elem_of_dom. rewrite Hdom. apply elem_of_dom. exact Hk. }
    assert (Hall3 : Forall (fun e0 => socket_contract w3 (ce_socket e0) /\
                                      attempt_fails e0 = true) es).
    { eapply Forall_impl; [exact Hall'|].
      intros e0 [Hs0 Hf0]. split; [|assumption].
      destruct (ce_socket e0) as [fd0|err0]; simpl in *; [|assumption].
      destruct Hs0. split; [assumption|]. apply Hfresh. assumption. }
    destruct (IH w3 c t (Z.max (clock_ms w) d + interval_ms (cinterval w)))
      as (a & w' & Hloop & Hlen & Hd' & Hh' & Hi' & Hp'); try assumption.
    { simpl. congruence. }
    { simpl. congruence. }
    { simpl. apply lookup_insert_eq. }
    eexists _, w'. split.
    { simpl. rewrite Ht. unfold timer_expires at 1, bind, get, modify.
      rewrite Hd. fold w1. rewrite Hrun. fold w3. rewrite Hloop.
      reflexivity. }
    simpl. split; [congruence|]. split; [congruence|].
    split; [simpl in Hh'; congruence|].
    split; [simpl in Hi'; congruence|]. exact Hp'.
Qed.

(** An absent peer, then a refused reconfigure message, on the device after
    [ipc_init]. *)
Lemma failed_attempts_leak_no_descriptor_witness :
  Forall (fun e => socket_contract w_init (ce_socket e) /\
                   attempt_fails e = true)
    [absent_peer; refused_reconfigure] /\
  exists a w',
    retry_loop [absent_peer; refused_reconfigure] w_init = Some (a, w') /\
    List.length a = 2%nat /\ dom (fds w') = dom (fds w_init).
Proof.
  assert (Hall : Forall (fun e => socket_contract w_init (ce_socket e) /\
                                  attempt_fails e = true)
                   [absent_peer; refused_reconfigure]).
  { repeat constructor; simpl; lia. }
  assert (Hk : is_Some (fds w_init !! 10)) by (vm_compute; eauto).
  destruct (failed_attempts_leak_no_descriptor
              [absent_peer; refused_reconfigure] w_init _ 0%nat 1000
              eq_refl ltac:(simpl; lia) Hk eq_refl eq_refl Hall)
    as (a & w' & Hrun & Hlen & Hdom & _).
  split; [exact Hall|]. exists a, w'. auto.
Defined.

(** An absent peer, then a refused reconfigure message: the attempts are made
    at 1000 and at 2000 milliseconds. *)
Lemma retry_interval_constant_witness :
  Forall (fun e => socket_contract w_init (ce_socket e) /\
                   attempt_fails e = true)
    [absent_peer; refused_reconfigure] /\
  option_map fst (retry_loop [absent_peer; refused_reconfigure] w_init) =
    Some [(1000, true); (2000, true)].
Proof.
  assert (Hall : Forall (fun e => socket_contract w_init (ce_socket e) /\
                                  attempt_fails e = true)
                   [absent_peer; refused_reconfigure]).
  { repeat constructor; simpl; lia. }
  assert (Hk : is_Some (fds w_init !! 10)) by (vm_compute; eauto).
  split; [exact Hall|].
  exact (retry_interval_constant [absent_peer; refused_reconfigure] w_init
           _ 0%nat 1000 eq_refl ltac:(simpl; lia) Hk eq_refl eq_refl
           ltac:(simpl; lia) Hall).
Defined.

(** ** Initialisation followed by teardown *)

(** X9.  On a device without session, a successful [ipc_init] followed by
    [ipc_exit] gives a device without session again: no timer, no read
    handler, the link DOWN, and the descriptor table of before the
    initialisation (the descriptor of the session is closed). *)
Theorem init_then_exit_round_trip e p n i w :
  fresh_device w -> socket_contract w (ie_socket e) ->
  init_fails e = false ->
  exists w1 l1 w2 l2,
    ipc_init e p n i w = Some (tt, w1, l1) /\
    ipc_exit w1 = Some (tt, w2, l2) /\
    fresh_device w2 /\ fds w2 = fds w /\ clock_ms w2 = clock_ms w.
Proof.
  intros (Hi & Hl & Hh & Htm) Hs Hf.
  destruct (ipc_init_succeeds e p n i w Hf) as (fd & Hsock & Hfd & Hrun).
  rewrite Hsock in Hs. simpl in Hs. destruct Hs as [_ Hfree].
  match type of Hrun with _ = Some (_, ?x, _) => set (w1 := x) in * end.
  set (t := fresh (dom (timers w))) in *.
  eexists w1, _, _, _. split; [exact Hrun|]. split.
  { apply (ipc_exit_session w1
             {| node_nid := n; node_fd := fd;
                node_ram_fd := fst (ram_lookup e);
                node_ram_size := snd (ram_lookup e) |}
             t (Some (clock_ms w + interval_ms i)));
      try reflexivity.
    simpl. apply lookup_insert_eq. }
  unfold fresh_device. simpl.
  split; [|split; [|reflexivity]].
  - split; [reflexivity|]. split; [reflexivity|]. split.
    + rewrite Hh. apply delete_empty.
    + rewrite Htm. rewrite !delete_insert_eq. apply delete_empty.
  - rewrite delete_insert_eq. apply delete_id. exact Hfree.
Qed.

(** Initialisation and teardown of the device before [ipc_init]. *)
Lemma init_then_exit_round_trip_witness :
  fresh_device boot /\ socket_contract boot (ie_socket good_init) /\
  exists w1 l1 w2 l2,
    ipc_init good_init "/tmp/s" 7 1 boot = Some (tt, w1, l1) /\
    ipc_exit w1 = Some (tt, w2, l2) /\
    fresh_device w2 /\ fds w2 = fds boot.
Proof.
  assert (Hs : socket_contract boot (ie_socket good_init)).
  { simpl. split; [lia | reflexivity]. }
  destruct (init_then_exit_round_trip good_init "/tmp/s" 7 1 boot boot_fresh
              Hs eq_refl)
    as (w1 & l1 & w2 & l2 & H1 & H2 & H3 & H4 & _).
  split; [exact boot_fresh|]. split; [exact Hs|].
  exists w1, l1, w2, l2. auto.
Defined.

(** ** The session between initialisation and teardown *)

(** X13.  Once the session exists, no step replaces it: after a timer, a
    read or the passing of time the device holds the same node (same
    descriptor, same guest memory); only [ipc_exit] empties the slot. *)
Theorem session_node_stable w l w' c :
  step w l w' -> ipc w = Some c ->
  ipc w' = Some c \/
  (ipc w' = None /\ ipc_exit w = Some (tt, w', l)).
Proof.
  intros Hstep Hc.
  destruct Hstep as
    [e p n i w w' l Hn Hs Ho Hrun | t e w w' l Hs Hrun | fd r w w' l Hrun
    | w w' l Hrun | dt w w' l Hrun].
  - congruence.
  - left. destruct (timer_expires_inv _ _ _ _ _ Hrun) as (d & Hd & Hrun1).
    destruct (ipc_connect_to_server_inv _ _ _ _ Hrun1)
      as (r & w1 & l1 & Hcts & Hrest).
    apply connect_to_server_frame in Hcts; [|exact Hs]. simpl in Hcts.
    destruct Hcts as (_ & _ & _ & _ & Ei & _).
    destruct Hrest as [(_ & -> & _) | (_ & l2 & Hsc & _)]; [congruence|].
    apply ipc_set_connector_run in Hsc.
    destruct Hsc as (t0 & d0 & _ & _ & -> & _). simpl. congruence.
  - left. destruct (fd_readable_inv _ _ _ _ _ Hrun) as (_ & Hrd).
    destruct (ipc_reader_frame _ _ _ _ _ Hrd) as (Ei & _). congruence.
  - right. split; [|exact Hrun].
    revert Hrun. run. rewrite Hc. simpl.
    destruct (ts w) as [t|]; simpl; [|discriminate].
    destruct (timers w !! t); simpl; [|discriminate].
    rewrite lookup_insert_eq. simpl.
    intros H; inversion H; subst. reflexivity.
  - left. unfold time_passes, bind, get, modify in Hrun. simpl in Hrun.
    inversion Hrun; subst. exact Hc.
Qed.

(** The first timer with an absent peer on the device after [ipc_init]. *)
Lemma session_node_stable_witness :
  exists w' l,
    step w_init l w' /\ ipc w' = ipc w_init /\ is_Some (ipc w_init).
Proof.
  assert (Hs : socket_contract w_init (ce_socket absent_peer)).
  { simpl. split; [lia | reflexivity]. }
  destruct (timer_expires 0%nat absent_peer w_init)
    as [[[[] w'] l]|] eqn:Hrun; [|vm_compute in Hrun; discriminate Hrun].
  pose proof (step_timer 0%nat absent_peer w_init w' l Hs Hrun) as Hstep.
  exists w', l. split; [exact Hstep|].
  destruct (session_node_stable w_init l w' _ Hstep eq_refl)
    as [Hsame | (Hnone & Hexit)].
  - split; [exact Hsame | simpl; eauto].
  - exfalso. vm_compute in Hrun. inversion Hrun; subst w'.
    discriminate Hnone.
Defined.

(** ** The timer callback *)

(** X15.  On a disconnected session the timer callback returns, and it does
    one of two things: when a step of the attempt fails it arms the retry
    timer and registers no handler; when every step succeeds it registers the
    read handler, reports the link UP and does not arm the timer. *)
Theorem callback_arms_iff_attempt_fails e w c t x :
  ipc w = Some c -> 0 <= node_fd c -> is_Some (fds w !! node_fd c) ->
  ts w = Some t -> timers w !! t = Some x -> connected w = false ->
  socket_contract w (ce_socket e) ->
  exists w' l,
    ipc_connect_to_server e w = Some (tt, w', l) /\
    (existsb is_arm l = true <-> attempt_fails e = true) /\
    (connected w' = true <-> attempt_fails e = false) /\
    (attempt_fails e = true ->
     timers w' !! t = Some (Some (clock_ms w + interval_ms (cinterval w))) /\
     link_down w' = link_down w) /\
    (attempt_fails e = false -> timers w' = timers w /\ link_down w' = false).
Proof.
  intros Hc H0 Hk Ht Hx Hcon Hs.
  destruct (attempt_fails e) eqn:Hf.
  - destruct (ipc_connect_to_server_fails e w c t x Hc H0 Hk Ht Hx Hs Hf)
      as (r & w1 & l1 & _ & _ & Hab & Hrun).
    destruct Hab as (Ei & _ & _ & _ & _ & Eh & El & _ & Harm & _).
    eexists _, _. split; [exact Hrun|]. split.
    { rewrite existsb_app. simpl. rewrite orb_true_r. tauto. }
    split.
    { assert (E : connected
                    (set_timers
                       (<[t := Some (clock_ms w + interval_ms (cinterval w))]>
                          (timers w)) w1) = false).
      { rewrite <- Hcon. apply connected_ext; simpl; assumption. }
      rewrite E. split; discriminate. }
    split; [|discriminate].
    intros _. simpl. split; [apply lookup_insert_eq | exact El].
  - destruct (connect_to_server_succeeds e w c Hc H0 Hk Hs Hf)
      as (fd & l & _ & Hrun & Harm).
    eexists _, l. split.
    { unfold ipc_connect_to_server, bind. rewrite Hrun. simpl.
      rewrite app_nil_r. reflexivity. }
    split; [rewrite Harm; split; discriminate|]. split.
    { unfold connected. simpl. rewrite Hc, lookup_insert_eq. tauto. }
    split; [discriminate|]. intros _. split; reflexivity.
Qed.

(** The callback on the device after [ipc_init], with an absent peer. *)
Lemma callback_arms_iff_attempt_fails_witness :
  connected w_init = false /\
  socket_contract w_init (ce_socket absent_peer) /\
  exists w' l,
    ipc_connect_to_server absent_peer w_init = Some (tt, w', l) /\
    existsb is_arm l = true /\ connected w' = false.
Proof.
  assert (Hk : is_Some (fds w_init !! 10)) by (vm_compute; eauto).
  assert (Hs : socket_contract w_init (ce_socket absent_peer)).
  { simpl. split; [lia | reflexivity]. }
  destruct (callback_arms_iff_attempt_fails absent_peer w_init _ 0%nat _
              eq_refl ltac:(simpl; lia) Hk eq_refl eq_refl eq_refl Hs)
    as (w' & l & Hrun & Harm & Hcon & _).
  split; [reflexivity|]. split; [exact Hs|].
  exists w', l. split; [exact Hrun|]. split; [apply Harm; reflexivity|].
  destruct (connected w') eqn:E; [|reflexivity].
  destruct Hcon as (Hcon & _). discriminate (Hcon eq_refl).
Defined.

(** ** Initialisation on a device that has a session *)

(** X14.  [ipc_init] does not look at the session slot.  Called on a device
    that already has a session, a successful initialisation overwrites the
    slot and the timer pointer and releases nothing of the old session: its
    descriptor is still open, its timer is still in the store in the state it
    was in, the read handlers are as before, and no descriptor, timer or node
    is released. *)
Theorem second_init_releases_nothing e p n i w c t x :
  ipc w = Some c -> ts w = Some t -> timers w !! t = Some x ->
  is_Some (fds w !! node_fd c) ->
  socket_contract w (ie_socket e) -> init_fails e = false ->
  exists w' l c' t',
    ipc_init e p n i w = Some (tt, w', l) /\
    ipc w' = Some c' /\ node_fd c' <> node_fd c /\
    ts w' = Some t' /\ t' <> t /\
    fds w' !! node_fd c = fds w !! node_fd c /\
    timers w' !! t = Some x /\
    fd_handlers w' = fd_handlers w /\
    existsb is_release l = false.
Proof.
  intros Hc Ht Hx Hk Hs Hf.
  destruct (ipc_init_succeeds e p n i w Hf) as (fd & Hsock & Hfd & Hrun).
  rewrite Hsock in Hs. simpl in Hs. destruct Hs as [_ Hfree].
  assert (Hne : fd <> node_fd c).
  { intros E. rewrite <- E, Hfree in Hk. destruct Hk; discriminate. }
  assert (Hnt : fresh (dom (timers w)) <> t).
  { intros E. apply (is_fresh (dom (timers w))). rewrite E.
    apply elem_of_dom. eauto. }
  eexists _, _, _, (fresh (dom (timers w))).
  split; [exact Hrun|]. simpl.
  split; [reflexivity|]. split; [exact Hne|]. split; [reflexivity|].
  split; [exact Hnt|]. split; [apply lookup_insert_ne; exact Hne|].
  split; [rewrite !lookup_insert_ne by exact Hnt; exact Hx|].
  split; reflexivity.
Qed.

(** A second [ipc_init] on the connected device: descriptor 10, timer 0 and
    the read handler of the first session are still there. *)
Lemma second_init_releases_nothing_witness :
  exists w' l,
    ipc_init
      {| ie_linux := true;
         ie_ram_blocks :=
           [ {| blk_offset := 0; blk_fd := 9; blk_length := 4096 |} ];
         ie_socket := SockOk 12; ie_malloc := true;
         ie_node_init := Success |} "/tmp/s" 7 1 w_conn = Some (tt, w', l) /\
    is_Some (fds w' !! 10) /\ is_Some (timers w' !! 0%nat) /\
    fd_handlers w' = fd_handlers w_conn.
Proof.
  assert (Hk : is_Some (fds w_conn !! 10)) by (vm_compute; eauto).
  destruct (second_init_releases_nothing
              {| ie_linux := true;
                 ie_ram_blocks :=
                   [ {| blk_offset := 0; blk_fd := 9; blk_length := 4096 |} ];
                 ie_socket := SockOk 12; ie_malloc := true;
                 ie_node_init := Success |} "/tmp/s" 7 1 w_conn _ 0%nat None
              eq_refl eq_refl eq_refl Hk
              ltac:(simpl; split; [lia | reflexivity]) eq_refl)
    as (w' & l & c' & t' & Hrun & _ & _ & _ & _ & Hfd & Htm & Hh & _).
  exists w', l. split; [exact Hrun|].
  split; [simpl in Hfd; rewrite Hfd; exact Hk|].
  split; [rewrite Htm; eauto | exact Hh].
Defined.
